(** * TOTP engine of the Playwright framework: [framework/security/otp.ts]
      over [framework/env/env.ts] and the [otpauth] package.

    The development is a shallow embedding.  JavaScript strings are lists of
    UTF-16 code units, byte buffers are lists of integers in [0, 255], numbers
    that the program only uses as integers (timestamps in milliseconds,
    counters, digit counts) are [Z].  [Env.cache] is a finite map.  The methods
    of the [OTP] class thread the instance (its [totp] cache slot) and may
    throw: they live in a small state-and-exception monad. *)

From stdpp Require Import base option list strings gmap.
From Stdlib Require Import ZArith Lia.

Local Open Scope Z_scope.

(** ** JavaScript strings and the built-ins the program calls *)

Module JS.

(** A string is its sequence of UTF-16 code units. *)
Abbreviation jsstring := (list Z) (only parsing).

(** ASCII literals: one code unit per character. *)
Definition str (s : string) : jsstring :=
  (fun a => Z.of_nat (Ascii.nat_of_ascii a)) <$> String.list_ascii_of_string s.
Arguments str s%_string.

Fixpoint streq (a b : jsstring) : bool :=
  match a, b with
  | [], [] => true
  | x :: a', y :: b' => (x =? y) && streq a' b'
  | _, _ => false
  end.

(** ECMAScript WhiteSpace and LineTerminator code points: what
    [String.prototype.trim] strips and what [\s] matches. *)
Definition isWhiteSpace (c : Z) : bool :=
  ((0x09 <=? c) && (c <=? 0x0D)) || (c =? 0x20) || (c =? 0xA0)
  || (c =? 0x1680) || ((0x2000 <=? c) && (c <=? 0x200A))
  || (c =? 0x2028) || (c =? 0x2029) || (c =? 0x202F) || (c =? 0x205F)
  || (c =? 0x3000) || (c =? 0xFEFF).

Fixpoint trimStart (s : jsstring) : jsstring :=
  match s with
  | c :: s' => if isWhiteSpace c then trimStart s' else s
  | [] => []
  end.

Definition trimEnd (s : jsstring) : jsstring := reverse (trimStart (reverse s)).

Definition trim (s : jsstring) : jsstring := trimEnd (trimStart s).

(** [s.replace(/\s+/g, "")] *)
Definition removeWhiteSpace (s : jsstring) : jsstring :=
  filter (fun c => isWhiteSpace c = false) s.

(** Truthiness of a string: [""] is the only falsy one. *)
Definition truthy (s : jsstring) : bool :=
  match s with [] => false | _ => true end.

Definition isAscii (c : Z) : Prop := 0 <= c < 128.

Definition isDigit (c : Z) : bool := (48 <=? c) && (c <=? 57).

Definition upperAscii (c : Z) : Z :=
  if (97 <=? c) && (c <=? 122) then c - 32 else c.

Definition lowerAscii (c : Z) : Z :=
  if (65 <=? c) && (c <=? 90) then c + 32 else c.

(** [String.prototype.toUpperCase] follows the Unicode case tables, which
    are not reproduced here.  The development is parametric in it and only
    relies on its behaviour on strings of ASCII characters. *)
Class Builtins := {
  toUpperCase : jsstring -> jsstring;
  toUpperCase_ascii :
    forall s : jsstring, Forall isAscii s -> toUpperCase s = upperAscii <$> s;
}.

(** The instance that treats every string as ASCII text: it is the
    specified behaviour on the strings a TOTP flow handles. *)
#[export] Program Instance ascii_builtins : Builtins :=
  {| toUpperCase := fmap upperAscii |}.
Next Obligation. reflexivity. Qed.

(** [Number.prototype.toString] on a non-negative integer (radix 10). *)
Fixpoint decimal_fuel (fuel : nat) (n : Z) (acc : jsstring) : jsstring :=
  match fuel with
  | O => acc
  | S f =>
      let acc' := (48 + n mod 10) :: acc in
      if n <? 10 then acc' else decimal_fuel f (n / 10) acc'
  end.

Definition numberToString (n : Z) : jsstring :=
  decimal_fuel (S (Z.to_nat (Z.log2 n))) n [].

(** [s.padStart(n, "0")] *)
Definition padStart0 (n : Z) (s : jsstring) : jsstring :=
  replicate (Z.to_nat (n - Z.of_nat (length s))) 48 ++ s.

(** [parseInt(s, 10)] on a string of decimal digits. *)
Definition parseDecimal (s : jsstring) : Z :=
  fold_left (fun acc c => 10 * acc + (c - 48)) s 0.

(** The regular expression [^[1-9]\d*$]. *)
Definition isPositiveInteger (s : jsstring) : bool :=
  match s with
  | c :: s' => (49 <=? c) && (c <=? 57) && forallb isDigit s'
  | [] => false
  end.

End JS.

(** ** Hash functions and HMAC (FIPS 180-4, RFC 2104)

    The [otpauth] package takes its hash functions from a cryptographic
    library; the specification names them ([HMAC(algorithm, secret,
    counter)], algorithm one of SHA1, SHA256, SHA512) and the standards
    define them.  They are written out here so that codes can be computed. *)

Module Hash.

Abbreviation bytes := (list Z) (only parsing).

Inductive Algorithm := SHA1 | SHA256 | SHA512.

Definition wrap (w : Z) (x : Z) : Z := x mod 2 ^ w.

Definition rotl (w n x : Z) : Z :=
  Z.lor (wrap w (Z.shiftl x n)) (Z.shiftr x (w - n)).

Definition rotr (w n x : Z) : Z := rotl w (w - n) x.

Definition lnot (w x : Z) : Z := 2 ^ w - 1 - x.

(** Big-endian encoding of [x mod 256^n] on [n] bytes. *)
Fixpoint be_bytes (n : nat) (x : Z) : bytes :=
  match n with
  | O => []
  | S n' => (x / 256 ^ Z.of_nat n') mod 256 :: be_bytes n' x
  end.

Definition be_word (bs : bytes) : Z :=
  fold_left (fun acc b => acc * 256 + b) bs 0.

Fixpoint chunks {A} (fuel : nat) (n : nat) (l : list A) : list (list A) :=
  match fuel, l with
  | O, _ | _, [] => []
  | S f, _ => take n l :: chunks f n (drop n l)
  end.

(** Message padding: a [0x80] byte, zeros, and the bit length on
    [lenbytes] bytes, up to a multiple of [block] bytes. *)
Definition pad (block lenbytes : Z) (msg : bytes) : bytes :=
  let len := Z.of_nat (length msg) in
  let zeros := (block - (len + 1 + lenbytes) mod block) mod block in
  msg ++ [128] ++ replicate (Z.to_nat zeros) 0
      ++ be_bytes (Z.to_nat lenbytes) (8 * len).

Definition blocks (block lenbytes wordbytes : Z) (msg : bytes)
  : list (list Z) :=
  let p := pad block lenbytes msg in
  (fun blk => be_word <$> chunks (length blk) (Z.to_nat wordbytes) blk)
    <$> chunks (length p) (Z.to_nat block) p.

(** Message schedule: [recent] holds the words computed so far, latest
    first; [next] computes one more word from them. *)
Fixpoint schedule (next : list Z -> Z) (n : nat) (recent : list Z)
  : list Z :=
  match n with
  | O => reverse recent
  | S n' => schedule next n' (next recent :: recent)
  end.

Definition back (k : nat) (recent : list Z) : Z := nth (k - 1) recent 0.

(** *** SHA-1 *)

Definition sha1_H0 : list Z :=
  [1732584193; 4023233417; 2562383102; 271733878; 3285377520].

Definition sha1_next (r : list Z) : Z :=
  rotl 32 1 (Z.lxor (Z.lxor (back 3 r) (back 8 r))
                    (Z.lxor (back 14 r) (back 16 r))).

Definition sha1_f (t : nat) (b c d : Z) : Z * Z :=
  if (t <? 20)%nat then
    (Z.lor (Z.land b c) (Z.land (lnot 32 b) d), 1518500249)
  else if (t <? 40)%nat then (Z.lxor (Z.lxor b c) d, 1859775393)
  else if (t <? 60)%nat then
    (Z.lor (Z.lor (Z.land b c) (Z.land b d)) (Z.land c d), 2400959708)
  else (Z.lxor (Z.lxor b c) d, 3395469782).

Definition sha1_round (st : list Z) (tw : nat * Z) : list Z :=
  match st with
  | [a; b; c; d; e] =>
      let '(f, k) := sha1_f tw.1 b c d in
      [wrap 32 (rotl 32 5 a + f + e + k + tw.2); a; rotl 32 30 b; c; d]
  | _ => st
  end.

Definition add_state (w : Z) (h st : list Z) : list Z :=
  zip_with (fun x y => wrap w (x + y)) h st.

Definition sha1_block (h : list Z) (blk : list Z) : list Z :=
  let ws := schedule sha1_next 64 (reverse blk) in
  add_state 32 h (fold_left sha1_round (zip (seq 0 80) ws) h).

Definition sha1 (msg : bytes) : bytes :=
  concat (be_bytes 4 <$> fold_left sha1_block (blocks 64 8 4 msg) sha1_H0).

(** *** SHA-256 and SHA-512: one round structure, two word sizes *)

Record Sha2 := {
  wbits : Z;
  rounds : nat;
  sha2_K : list Z;
  sha2_H0 : list Z;
  Sigma0 : Z * Z * Z;  (* rotations *)
  Sigma1 : Z * Z * Z;  (* rotations *)
  sigma0 : Z * Z * Z;  (* rotation, rotation, shift *)
  sigma1 : Z * Z * Z;  (* rotation, rotation, shift *)
}.

Definition sha256_params : Sha2 := {|
  wbits := 32; rounds := 64;
  sha2_K :=
  [1116352408; 1899447441; 3049323471; 3921009573; 961987163; 1508970993;
   2453635748; 2870763221; 3624381080; 310598401; 607225278; 1426881987;
   1925078388; 2162078206; 2614888103; 3248222580; 3835390401; 4022224774;
   264347078; 604807628; 770255983; 1249150122; 1555081692; 1996064986;
   2554220882; 2821834349; 2952996808; 3210313671; 3336571891; 3584528711;
   113926993; 338241895; 666307205; 773529912; 1294757372; 1396182291;
   1695183700; 1986661051; 2177026350; 2456956037; 2730485921; 2820302411;
   3259730800; 3345764771; 3516065817; 3600352804; 4094571909; 275423344;
   430227734; 506948616; 659060556; 883997877; 958139571; 1322822218;
   1537002063; 1747873779; 1955562222; 2024104815; 2227730452; 2361852424;
   2428436474; 2756734187; 3204031479; 3329325298];
  sha2_H0 :=
  [1779033703; 3144134277; 1013904242; 2773480762;
   1359893119; 2600822924; 528734635; 1541459225];
  Sigma0 := (2, 13, 22); Sigma1 := (6, 11, 25);
  sigma0 := (7, 18, 3); sigma1 := (17, 19, 10);
|}.

Definition sha512_params : Sha2 := {|
  wbits := 64; rounds := 80;
  sha2_K :=
  [4794697086780616226; 8158064640168781261; 13096744586834688815;
   16840607885511220156; 4131703408338449720; 6480981068601479193;
   10538285296894168987; 12329834152419229976; 15566598209576043074;
   1334009975649890238; 2608012711638119052; 6128411473006802146;
   8268148722764581231; 9286055187155687089; 11230858885718282805;
   13951009754708518548; 16472876342353939154; 17275323862435702243;
   1135362057144423861; 2597628984639134821; 3308224258029322869;
   5365058923640841347; 6679025012923562964; 8573033837759648693;
   10970295158949994411; 12119686244451234320; 12683024718118986047;
   13788192230050041572; 14330467153632333762; 15395433587784984357;
   489312712824947311; 1452737877330783856; 2861767655752347644;
   3322285676063803686; 5560940570517711597; 5996557281743188959;
   7280758554555802590; 8532644243296465576; 9350256976987008742;
   10552545826968843579; 11727347734174303076; 12113106623233404929;
   14000437183269869457; 14369950271660146224; 15101387698204529176;
   15463397548674623760; 17586052441742319658; 1182934255886127544;
   1847814050463011016; 2177327727835720531; 2830643537854262169;
   3796741975233480872; 4115178125766777443; 5681478168544905931;
   6601373596472566643; 7507060721942968483; 8399075790359081724;
   8693463985226723168; 9568029438360202098; 10144078919501101548;
   10430055236837252648; 11840083180663258601; 13761210420658862357;
   14299343276471374635; 14566680578165727644; 15097957966210449927;
   16922976911328602910; 17689382322260857208; 500013540394364858;
   748580250866718886; 1242879168328830382; 1977374033974150939;
   2944078676154940804; 3659926193048069267; 4368137639120453308;
   4836135668995329356; 5532061633213252278; 6448918945643986474;
   6902733635092675308; 7801388544844847127];
  sha2_H0 :=
  [7640891576956012808; 13503953896175478587;
   4354685564936845355; 11912009170470909681;
   5840696475078001361; 11170449401992604703;
   2270897969802886507; 6620516959819538809];
  Sigma0 := (28, 34, 39); Sigma1 := (14, 18, 41);
  sigma0 := (1, 8, 7); sigma1 := (19, 61, 6);
|}.

Section Sha2.
Variable P : Sha2.

Definition big (r : Z * Z * Z) (x : Z) : Z :=
  let '(a, b, c) := r in
  Z.lxor (Z.lxor (rotr (wbits P) a x) (rotr (wbits P) b x))
         (rotr (wbits P) c x).

Definition small (r : Z * Z * Z) (x : Z) : Z :=
  let '(a, b, c) := r in
  Z.lxor (Z.lxor (rotr (wbits P) a x) (rotr (wbits P) b x))
         (Z.shiftr x c).

Definition sha2_next (r : list Z) : Z :=
  wrap (wbits P)
    (small (sigma1 P) (back 2 r) + back 7 r
     + small (sigma0 P) (back 15 r) + back 16 r).

Definition sha2_round (st : list Z) (kw : Z * Z) : list Z :=
  match st with
  | [a; b; c; d; e; f; g; h] =>
      let ch := Z.lxor (Z.land e f) (Z.land (lnot (wbits P) e) g) in
      let maj := Z.lxor (Z.lxor (Z.land a b) (Z.land a c)) (Z.land b c) in
      let t1 := h + big (Sigma1 P) e + ch + kw.1 + kw.2 in
      let t2 := big (Sigma0 P) a + maj in
      [wrap (wbits P) (t1 + t2); a; b; c;
       wrap (wbits P) (d + t1); e; f; g]
  | _ => st
  end.

Definition sha2_block (h : list Z) (blk : list Z) : list Z :=
  let ws := schedule sha2_next (rounds P - 16) (reverse blk) in
  add_state (wbits P) h (fold_left sha2_round (zip (sha2_K P) ws) h).

Definition sha2 (msg : bytes) : bytes :=
  let wb := wbits P / 8 in
  concat (be_bytes (Z.to_nat wb)
            <$> fold_left sha2_block (blocks (16 * wb) (2 * wb) wb msg)
                  (sha2_H0 P)).
End Sha2.

Definition blockSize (alg : Algorithm) : Z :=
  match alg with SHA1 | SHA256 => 64 | SHA512 => 128 end.

(** Modelled from the spec: the hash of the [algorithm] field of a
    [TotpSpec], as FIPS 180-4 defines it. *)
Definition digest (alg : Algorithm) (msg : bytes) : bytes :=
  match alg with
  | SHA1 => sha1 msg
  | SHA256 => sha2 sha256_params msg
  | SHA512 => sha2 sha512_params msg
  end.

(** Modelled from the spec: [HMAC(algorithm, secret, counter)], which is
    RFC 2104, [H((K xor opad) || H((K xor ipad) || message))]. *)
Definition hmacDigest (alg : Algorithm) (key message : bytes) : bytes :=
  let b := blockSize alg in
  let k0 := if b <? Z.of_nat (length key) then digest alg key else key in
  let k := k0 ++ replicate (Z.to_nat (b - Z.of_nat (length k0))) 0 in
  digest alg ((Z.lxor 92 <$> k)
              ++ digest alg ((Z.lxor 54 <$> k) ++ message)).

End Hash.

Import JS Hash.

(** ** The [otpauth] package *)

Module OTPAuth.

(** Modelled from the spec: the [otpauth] package is a dependency of the
    repository and its sources are not part of it.  [Secret.fromBase32],
    [HOTP.generate], [TOTP.generate], [HOTP.validate], [TOTP.validate] and
    [URI.parse] below follow sections 4.2 to 4.4 of the specification
    (RFC 4648 base32, RFC 4226 dynamic truncation, RFC 6238 time steps). *)
Record TOTP := {
  issuer : jsstring;
  label : jsstring;
  secret : bytes;
  algorithm : Algorithm;
  digits : Z;
  period : Z;
}.

Record HOTP := {
  hotp_label : jsstring;
  hotp_secret : bytes;
  hotp_algorithm : Algorithm;
  hotp_digits : Z;
  counter : Z;
}.

(** What [URI.parse] returns: an instance of one of the two classes. *)
Inductive OTPObject := IsTOTP (t : TOTP) | IsHOTP (h : HOTP).

Inductive ParseError :=
| InvalidUriFormat
| MissingSecret
| InvalidSecret
| InvalidAlgorithm
| InvalidDigits
| InvalidPeriod
| InvalidCounter.

(** Sequencing of partial steps: [None] and [inl] propagate. *)
Notation "'let?' p := e 'in' k" :=
  (match e with Some p => k | None => None end)
  (at level 10, p pattern, e at level 100, k at level 200, only parsing).
Notation "'try!' x := e 'in' k" :=
  (match e with inr x => k | inl err => inl err end)
  (at level 10, x name, e at level 100, k at level 200, only parsing).

(** *** Base32 secrets *)

(** Index in the alphabet [A-Z2-7], letters in either case. *)
Definition base32Index (c : Z) : option Z :=
  let u := upperAscii c in
  if (65 <=? u) && (u <=? 90) then Some (u - 65)
  else if (50 <=? u) && (u <=? 55) then Some (u - 24)
  else None.

Fixpoint dropPadding (rs : jsstring) : jsstring :=
  match rs with
  | 61 :: rs' => dropPadding rs'
  | _ => rs
  end.

(** The text without its trailing [=] characters. *)
Definition unpadded (s : jsstring) : jsstring := reverse (dropPadding (reverse s)).

(** Modelled from the spec: the check of the secret, as the package makes
    it: one or more alphabet characters, then any number of [=].  The
    alphabet is checked; the amount of padding is not, and the decoder
    removes it. *)
Definition validSecret (s : jsstring) : bool :=
  match unpadded s with
  | [] => false
  | body => forallb (fun c => bool_decide (is_Some (base32Index c))) body
  end.

Fixpoint base32Loop (s : jsstring) (bits value : Z) : option bytes :=
  match s with
  | [] => Some []
  | c :: s' =>
      let? idx := base32Index c in
      let value := wrap 32 (Z.lor (Z.shiftl value 5) idx) in
      let bits := bits + 5 in
      if 8 <=? bits
      then (fun out => Z.shiftr value (bits - 8) mod 256 :: out)
             <$> base32Loop s' (bits - 8) value
      else base32Loop s' bits value
  end.

(** Modelled from the spec: [Secret.fromBase32], RFC 4648 base32, five bits
    a character, most significant first, trailing bits dropped. *)
Definition base32Decode (s : jsstring) : option bytes :=
  base32Loop (unpadded s) 0 0.

(** *** Code generation *)

(** Modelled from the spec: the counter as 8 bytes, big-endian. *)
Definition uintDecode (counter : Z) : bytes := be_bytes 8 counter.

(** Modelled from the spec: dynamic truncation of an HMAC value.  The low
    4 bits of the last byte give an offset; the 4 bytes at that offset, top
    bit masked, are read as a 31-bit unsigned integer. *)
Definition truncate (digest : bytes) : Z :=
  let byte i := nth (Z.to_nat i) digest 0 in
  let offset := Z.land (byte (Z.of_nat (length digest) - 1)) 15 in
  Z.lor (Z.lor (Z.lor (Z.shiftl (Z.land (byte offset) 127) 24)
                      (Z.shiftl (Z.land (byte (offset + 1)) 255) 16))
               (Z.shiftl (Z.land (byte (offset + 2)) 255) 8))
        (Z.land (byte (offset + 3)) 255).

(** Modelled from the spec: [HOTP.generate], the truncated HMAC of the
    counter, reduced modulo [10^digits] and left-padded with zeros to
    [digits] characters. *)
Definition HOTP_generate (secret : bytes) (algorithm : Algorithm)
    (digits counter : Z) : jsstring :=
  let otp :=
    truncate (hmacDigest algorithm secret (uintDecode counter))
    mod 10 ^ digits in
  padStart0 digits (numberToString otp).

(** Modelled from the spec: [floor(unixSeconds(instant) / period)], the
    instant in milliseconds as [Date.now()] gives it. *)
Definition TOTP_counter (period timestamp : Z) : Z :=
  timestamp / 1000 / period.

(** Modelled from the spec: [totp.generate({ timestamp })]; the timestamp
    defaults to [Date.now()]. *)
Definition TOTP_generate (now : Z) (t : TOTP) (timestamp : option Z)
  : jsstring :=
  HOTP_generate (secret t) (algorithm t) (digits t)
    (TOTP_counter (period t) (default now timestamp)).

(** *** Validation *)

(** Offsets [-i], [+i], [-(i+1)], [+(i+1)], ... for [n] distances. *)
Fixpoint searchWindow (check : Z -> bool) (counter i : Z) (n : nat)
  : option Z :=
  match n with
  | O => None
  | S n' =>
      if check (counter - i) then Some (- i)
      else if check (counter + i) then Some i
      else searchWindow check counter (i + 1) n'
  end.

(** Modelled from the spec: [HOTP.validate].  A token of the wrong length
    is rejected at once; otherwise the codes at offsets 0, -1, +1, -2, +2,
    ... are compared with the token and the first offset that matches is
    returned.  The comparison is equality of the two texts, which is what
    the package's constant-time comparison of their bytes decides for
    ASCII tokens; a token of [digits] code units with a character outside
    ASCII is not in the domain of this definition, and the properties
    below assume it away. *)
Definition HOTP_validate (token : jsstring) (secret : bytes)
    (algorithm : Algorithm) (digits counter window : Z) : option Z :=
  if negb (Z.of_nat (length token) =? digits) then None
  else
    let check i := streq token (HOTP_generate secret algorithm digits i) in
    if check counter then Some 0
    else searchWindow check counter 1 (Z.to_nat window).

(** Modelled from the spec: [totp.validate({ token, window, timestamp })];
    the timestamp defaults to [Date.now()]. *)
Definition TOTP_validate (now : Z) (t : TOTP) (token : jsstring)
    (window : Z) (timestamp : option Z) : option Z :=
  HOTP_validate token (secret t) (algorithm t) (digits t)
    (TOTP_counter (period t) (default now timestamp)) window.

(** *** Provisioning strings *)

Fixpoint splitFirst (sep : Z) (s : jsstring) : option (jsstring * jsstring) :=
  match s with
  | [] => None
  | c :: s' =>
      if c =? sep then Some ([], s')
      else (fun p => (c :: p.1, p.2)) <$> splitFirst sep s'
  end.

Definition splitLast (sep : Z) (s : jsstring) : option (jsstring * jsstring) :=
  (fun p => (reverse p.2, reverse p.1)) <$> splitFirst sep (reverse s).

(** [s.split(sep)] for a one-character separator. *)
Fixpoint split (sep : Z) (s : jsstring) : list jsstring :=
  match s with
  | [] => [[]]
  | c :: s' =>
      match split sep s' with
      | piece :: pieces =>
          if c =? sep then [] :: piece :: pieces
          else (c :: piece) :: pieces
      | [] => [[c]]
      end
  end.

Fixpoint stripPrefixCI (prefix s : jsstring) : option jsstring :=
  match prefix, s with
  | [], _ => Some s
  | p :: prefix', c :: s' =>
      if lowerAscii c =? p then stripPrefixCI prefix' s' else None
  | _ :: _, [] => None
  end.

Definition isLineTerminator (c : Z) : bool :=
  (c =? 0x0A) || (c =? 0x0D) || (c =? 0x2028) || (c =? 0x2029).

(** Characters of a parameter name: letters, digits and [.~_-]. *)
Definition isKeyChar (c : Z) : bool :=
  let l := lowerAscii c in
  ((97 <=? l) && (l <=? 122)) || isDigit c
  || (c =? 46) || (c =? 126) || (c =? 95) || (c =? 45).

Definition parseParam (p : jsstring) : option (jsstring * jsstring) :=
  let? (k, v) := splitFirst 61 p in
  if truthy k && forallb isKeyChar k then Some (lowerAscii <$> k, v)
  else None.

Fixpoint parseParams (ps : list jsstring)
  : option (list (jsstring * jsstring)) :=
  match ps with
  | [] => Some []
  | p :: ps' =>
      let? kv := parseParam p in
      let? kvs := parseParams ps' in
      Some (kv :: kvs)
  end.

(** Modelled from the spec: the shape [otpauth://TYPE/LABEL?KEY=VALUE&...]
    of a provisioning string.  The result is the type in lower case, the
    label and the parameters, names in lower case. *)
Definition matchUri (uri : jsstring)
  : option (jsstring * jsstring * list (jsstring * jsstring)) :=
  let? rest := stripPrefixCI (str "otpauth://") uri in
  let? (ty, rest) := splitFirst 47 rest in
  let? (label, query) := splitLast 63 rest in
  let? params := parseParams (split 38 query) in
  if truthy label && forallb (fun c => negb (isLineTerminator c)) label
  then Some (lowerAscii <$> ty, label, params)
  else None.

(** The value of a parameter; the last occurrence wins. *)
Definition param (key : string) (params : list (jsstring * jsstring))
  : option jsstring :=
  snd <$> find (fun kv => streq kv.1 (str key)) (reverse params).

Definition parseAlgorithm (s : jsstring) : option Algorithm :=
  let u := upperAscii <$> s in
  if streq u (str "SHA1") then Some SHA1
  else if streq u (str "SHA256") then Some SHA256
  else if streq u (str "SHA512") then Some SHA512
  else None.

(** An optional parameter: its default when absent, an error when it is
    present and does not parse. *)
Definition optional {A} (v : option jsstring) (parse : jsstring -> option A)
    (def : A) (e : ParseError) : ParseError + A :=
  match v with
  | None => inr def
  | Some s => match parse s with Some a => inr a | None => inl e end
  end.

Definition parsePositive (s : jsstring) : option Z :=
  if isPositiveInteger s then Some (parseDecimal s) else None.

Definition parseInteger (s : jsstring) : option Z :=
  if truthy s && forallb isDigit s then Some (parseDecimal s) else None.


(** Modelled from the spec: [URI.parse].  The checks come in the order of
    the package: the shape of the string, the type with its counter
    (required) or period (optional, default 30), the secret (required,
    decoded from base32), then algorithm and digits (optional, defaults
    SHA1 and 6).  A counter-based string parses to an [HOTP] instance,
    which the engine then refuses.  Parameter values are read as they are
    written: percent-escapes are not decoded, so the definition stands for
    the parser on strings without [%] ([noEscapes]). *)
Definition URI_parse (uri : jsstring) : ParseError + OTPObject :=
  match matchUri uri with
  | None => inl InvalidUriFormat
  | Some (ty, lbl, params) =>
      let issuer_ := default [] (param "issuer" params) in
      let typed : ParseError + (bytes -> Algorithm -> Z -> OTPObject) :=
        if streq ty (str "hotp") then
          match (let? c := param "counter" params in parseInteger c) with
          | None => inl InvalidCounter
          | Some c =>
              inr (fun key alg dig =>
                     IsHOTP {| hotp_label := lbl; hotp_secret := key;
                               hotp_algorithm := alg;
                               hotp_digits := dig; counter := c |})
          end
        else if streq ty (str "totp") then
          try! per := optional (param "period" params) parsePositive
                        30 InvalidPeriod in
          inr (fun key alg dig =>
                 IsTOTP {| issuer := issuer_; label := lbl; secret := key;
                           algorithm := alg; digits := dig; period := per |})
        else inl InvalidUriFormat in
      try! make := typed in
      match param "secret" params with
      | None => inl MissingSecret
      | Some s =>
          match (if validSecret s then base32Decode s else None) with
          | None => inl InvalidSecret
          | Some key =>
              try! alg := optional (param "algorithm" params) parseAlgorithm
                            SHA1 InvalidAlgorithm in
              try! dig := optional (param "digits" params) parsePositive
                            6 InvalidDigits in
              inr (make key alg dig)
          end
      end
  end.

End OTPAuth.

Import OTPAuth.

(** ** Exceptions

    Every failure of the program is a JavaScript [Error] told apart by its
    message only; one constructor per [throw] of the two classes. *)

Inductive Error :=
| MissingEnvironmentVariable (key : jsstring)
    (* env.ts: "Missing environment variable: KEY" *)
| NoUriOrEnvKey
    (* otp.ts: "OTP: No URI or envKey provided." *)
| InvalidOtpauthUri (source : jsstring) (cause : ParseError)
    (* otp.ts: "OTP: Invalid otpauth URI (SOURCE): MESSAGE" *)
| NotTotpConfiguration (source : jsstring).
    (* otp.ts: "OTP: The provided URI (SOURCE) is not a TOTP configuration." *)

(** The error classes of the specification, as the messages realise them. *)
Inductive ErrorClass :=
| ConfigurationError
| MalformedConfigurationError
| InvalidSecretError
| UnsupportedTypeError.

Definition classify (e : Error) : ErrorClass :=
  match e with
  | MissingEnvironmentVariable _ | NoUriOrEnvKey => ConfigurationError
  | InvalidOtpauthUri _ InvalidSecret => InvalidSecretError
  | InvalidOtpauthUri _ _ => MalformedConfigurationError
  | NotTotpConfiguration _ => UnsupportedTypeError
  end.

(** ** The process: environment, [Env.cache] and clock *)

Record Process := {
  (** [process.env], which the host or the tests may change at run time *)
  process_env : gmap jsstring jsstring;
  (** [Env.cache], the copy of [process.env] made when [env.ts] is loaded *)
  cache : gmap jsstring jsstring;
  (** [Date.now()], in milliseconds *)
  now : Z;
}.

(** The two maps hold the variables, which are the own properties of the
    two objects.  Both objects inherit from [Object.prototype]: a lookup
    of one of its property names finds, when no variable has that name, a
    method of the prototype and not [undefined].  Such a lookup is not in
    the domain of the definitions below; the properties that depend on an
    unset variable being [undefined] leave these names out. *)
Definition inheritedKey (key : jsstring) : bool :=
  existsb (streq key)
    [str "constructor"; str "hasOwnProperty"; str "isPrototypeOf";
     str "propertyIsEnumerable"; str "toLocaleString"; str "toString";
     str "valueOf"; str "__proto__"; str "__defineGetter__";
     str "__defineSetter__"; str "__lookupGetter__"; str "__lookupSetter__"].

(** Loading [env.ts]: [cache = { ...process.env }]. *)
Definition startup (env : gmap jsstring jsstring) (clock : Z) : Process :=
  {| process_env := env; cache := env; now := clock |}.

(** [process.env[key] = value] *)
Definition setenv (key value : jsstring) (p : Process) : Process :=
  {| process_env := <[key := value]> (process_env p);
     cache := cache p; now := now p |}.

(** The clock moves on. *)
Definition tick (clock : Z) (p : Process) : Process :=
  {| process_env := process_env p; cache := cache p; now := clock |}.

(** ** [framework/env/env.ts] *)

Module Env.

(** [StringOpts]; an absent field is [None] and takes its default. *)
Record StringOpts := {
  required : option bool;
  defVal : option jsstring;
  trimOpt : option bool;
}.

(** [Env.get(key, opts)] without a parser.  The result is a string or
    [undefined] ([None]: the default of a variable that is not required).
    [cache p !! key] stands for [this.cache[key]], which it is for every
    key but an unset one with [inheritedKey]. *)
Definition get (p : Process) (key : jsstring) (opts : StringOpts)
  : Error + option jsstring :=
  let required := default true (required opts) in
  let trim_ := default true (trimOpt opts) in
  let raw := cache p !! key in
  let missing :=
    match raw with None => true | Some v => negb (truthy v) end in
  if missing && negb required then inr (defVal opts)
  else if missing then inl (MissingEnvironmentVariable key)
  else
    let raw := default [] raw in
    inr (Some (if trim_ then trim raw else raw)).

(** [Env.has(key)], for every key but an unset one with [inheritedKey],
    where the lookup finds a method of the prototype and the program
    answers true. *)
Definition has (p : Process) (key : jsstring) : bool :=
  match cache p !! key with
  | Some v => truthy v
  | None => false
  end.

(** [Env.getString(key, required = true, def)] *)
Definition getString (p : Process) (key : jsstring)
    (required : option bool) (def : option jsstring)
  : Error + option jsstring :=
  get p key {| required := Some (default true required);
               defVal := def; trimOpt := None |}.

End Env.


(** ** [framework/security/otp.ts] *)

Module OTP.

(** An instance of the class. *)
Record t := {
  uri : option jsstring;
  envKey : option jsstring;
  totp : option TOTP;
}.

Record VerificationResult := {
  ok : bool;
  delta : option Z;
  reason : option jsstring;
}.

(** A method runs in a process, on an instance; it returns or throws, and
    leaves the instance in a new state. *)
Definition Method (A : Type) : Type := Process -> t -> (Error + A) * t.

Definition ret {A} (a : A) : Method A := fun _ this => (inr a, this).

Definition throw {A} (e : Error) : Method A := fun _ this => (inl e, this).

Definition bind {A B} (m : Method A) (k : A -> Method B) : Method B :=
  fun p this =>
    match m p this with
    | (inr a, this') => k a p this'
    | (inl e, this') => (inl e, this')
    end.

Notation "'do' x <- m ; k" := (bind m (fun x => k))
  (at level 10, x name, m at level 100, k at level 200, only parsing).

(** The instance, the process, a result of [Env], and the one write the
    class makes: [this.totp = v]. *)
Definition self : Method t := fun _ this => (inr this, this).

Definition process : Method Process := fun p this => (inr p, this).

Definition lift {A} (r : Error + A) : Method A := fun _ this => (r, this).

Definition setTotp (v : option TOTP) : Method unit := fun _ this =>
  (inr tt, {| uri := uri this; envKey := envKey this; totp := v |}).

Definition fromEnv (envKey : jsstring) : t :=
  {| uri := None; envKey := Some envKey; totp := None |}.

Definition fromUri (uri : jsstring) : t :=
  {| uri := Some uri; envKey := None; totp := None |}.

(** [this.envKey ?? "direct"] *)
Definition source (this : t) : jsstring := default (str "direct") (envKey this).

(** Truthiness of an optional string: [undefined] and [""] are falsy. *)
Definition truthyString (s : option jsstring) : bool :=
  match s with
  | Some s => truthy s
  | None => false
  end.

(** [Env.getString(this.envKey)] is called with [required] left to its
    default, so it returns a string or throws; the [undefined] result of
    the other mode cannot arise and reads as the empty string here. *)
Definition getUri : Method jsstring :=
  do this <- self;
  let uri_ := default [] (uri this) in
  let envKey_ := default [] (envKey this) in
  if truthyString (uri this) && truthy (trim uri_) then ret (trim uri_)
  else if truthyString (envKey this) then
    do p <- process;
    do v <- lift (Env.getString p envKey_ None None);
    ret (default [] v)
  else throw NoUriOrEnvKey.

Definition getTOTP : Method TOTP :=
  do this <- self;
  match totp this with
  | Some cached => ret cached
  | None =>
      do uri_ <- getUri;
      match URI_parse uri_ with
      | inl e => throw (InvalidOtpauthUri (source this) e)
      | inr (IsTOTP parsed) =>
          do _ <- setTotp (Some parsed);
          ret parsed
      | inr (IsHOTP _) => throw (NotTotpConfiguration (source this))
      end
  end.

(** Truthiness of an optional number: [undefined] and [0] are falsy. *)
Definition truthyNumber (n : option Z) : bool :=
  match n with
  | Some z => negb (z =? 0)
  | None => false
  end.

Definition getCode (timestamp : option Z) : Method jsstring :=
  do totp <- getTOTP;
  do p <- process;
  ret (if truthyNumber timestamp
       then TOTP_generate (now p) totp timestamp
       else TOTP_generate (now p) totp None).

Section Normalize.
Context `{Builtins}.

(** [s.replace(/[０-９]/g, d => ...)]: the full-width digits U+FF10 to
    U+FF19 become ASCII digits. *)
Definition toAsciiDigits (s : jsstring) : jsstring :=
  (fun d => if (0xFF10 <=? d) && (d <=? 0xFF19) then d - 0xFF10 + 0x30 else d)
    <$> s.

Definition normalizeToken (input : jsstring) : jsstring :=
  toUpperCase (removeWhiteSpace (toAsciiDigits input)).

Definition verify (code : jsstring) (window : option Z)
    (timestamp : option Z) : Method VerificationResult :=
  let window := default 1 window in
  do totp <- getTOTP;
  if negb (truthy code) then
    ret {| ok := false; delta := None;
           reason := Some (str "Empty or non-string code") |}
  else
    let token := normalizeToken code in
    do p <- process;
    let delta := TOTP_validate (now p) totp token window timestamp in
    ret {| ok := bool_decide (is_Some delta);
           delta := delta;
           reason := match delta with
                     | None => Some (str "Invalid or out-of-window token")
                     | Some _ => None
                     end |}.

Definition verifyBool (code : jsstring) (window : option Z)
    (timestamp : option Z) : Method bool :=
  do r <- verify code window timestamp;
  ret (ok r).
End Normalize.

Definition refresh : Method unit := setTotp None.

End OTP.

(** ** Vocabulary of the specification *)

Definition digitChar (c : Z) : Prop := 48 <= c <= 57.

(** The invariant of a [TotpSpec]. *)
Definition valid_spec (spec : TOTP) : Prop :=
  1 <= digits spec <= 10 /\ 1 <= period spec /\ secret spec <> [].

(** The code of a spec at a counter value. *)
Definition code_at (spec : TOTP) (c : Z) : jsstring :=
  HOTP_generate (secret spec) (algorithm spec) (digits spec) c.

(** The reference derivation of RFC 6238 for an instant in milliseconds. *)
Definition rfc6238 (spec : TOTP) (instant : Z) : jsstring :=
  let counter := instant / 1000 / period spec in
  let mac := hmacDigest (algorithm spec) (secret spec) (be_bytes 8 counter) in
  padStart0 (digits spec) (numberToString (truncate mac mod 10 ^ digits spec)).

(** Offset [j] is compared before offset [d]: the validator goes by
    increasing distance, the earlier step first. *)
Definition precedes (j d : Z) : Prop :=
  Z.abs j < Z.abs d \/ (j = - d /\ 0 < d).

Definition accepted (d : Z) : OTP.VerificationResult :=
  {| OTP.ok := true; OTP.delta := Some d; OTP.reason := None |}.

Definition rejected (why : string) : OTP.VerificationResult :=
  {| OTP.ok := false; OTP.delta := None; OTP.reason := Some (str why) |}.

(** The normaliser in the words of the specification, written without the
    functions of the code: the surrounding white space is trimmed, each of
    the ten full-width digits becomes the ASCII digit of the table, the
    white space that is left is dropped, and the result is put in upper
    case. *)
Definition fullWidthDigits : list (Z * Z) :=
  [(0xFF10, 48); (0xFF11, 49); (0xFF12, 50); (0xFF13, 51); (0xFF14, 52);
   (0xFF15, 53); (0xFF16, 54); (0xFF17, 55); (0xFF18, 56); (0xFF19, 57)].

Definition asciiDigit (c : Z) : Z :=
  match find (fun e : Z * Z => e.1 =? c) fullWidthDigits with
  | Some e => e.2
  | None => c
  end.

Fixpoint dropWhiteSpace (s : jsstring) : jsstring :=
  match s with
  | [] => []
  | c :: s' => if isWhiteSpace c then dropWhiteSpace s'
               else c :: dropWhiteSpace s'
  end.

Definition normalize_spec `{Builtins} (s : jsstring) : jsstring :=
  toUpperCase (dropWhiteSpace (asciiDigit <$> trim s)).

(** ** A running example: the secret of the end-to-end scenario *)

Definition demo_uri : jsstring :=
  str "otpauth://totp/Heroku:demo?secret=JBSWY3DPEHPK3PXP&issuer=Heroku".

Definition demo_spec : TOTP :=
  {| issuer := str "Heroku"; label := str "Heroku:demo";
     secret := str "Hello!" ++ [222; 173; 190; 239];
     algorithm := SHA1; digits := 6; period := 30 |}.

(** The instance made from the literal string, once it has parsed it. *)
Definition demo_engine : OTP.t :=
  {| OTP.uri := Some demo_uri; OTP.envKey := None;
     OTP.totp := Some demo_spec |}.

Definition demo_key : jsstring := str "HEROKU_OTP_URI".

(** The instance made from the name of the variable, with a spec in its
    cache slot or without. *)
Definition env_engine (cached : option TOTP) : OTP.t :=
  {| OTP.uri := None; OTP.envKey := Some demo_key; OTP.totp := cached |}.

(** The variable is set when the process starts; the clock reads
    2023-11-14T22:13:20Z. *)
Definition demo_process : Process :=
  startup {[ demo_key := demo_uri ]} 1700000000000.

(** A second provisioning string: the secret [12345678901234567890] of
    RFC 6238. *)
Definition other_uri : jsstring :=
  str "otpauth://totp/Heroku:demo?secret=GEZDGNBVGY3TQOJQGEZDGNBVGY3TQOJQ".

(** A provisioning string whose secret has a character outside base32. *)
Definition bad_secret_uri : jsstring :=
  str "otpauth://totp/Heroku:demo?secret=JBSWY3DP-EHPK3PXP&digits=6".





(** ** The rest of [framework/env/env.ts]: accessors with a parser *)

(** [String.prototype.toLowerCase], as [toUpperCase] above: a parameter
    with its behaviour on ASCII text. *)
Class LowerCase := {
  toLowerCase : jsstring -> jsstring;
  toLowerCase_ascii :
    forall s : jsstring, Forall isAscii s -> toLowerCase s = lowerAscii <$> s;
}.

#[export] Program Instance ascii_lower_case : LowerCase :=
  {| toLowerCase := fmap lowerAscii |}.
Next Obligation. reflexivity. Qed.

Module EnvAccessors.

(** What the accessors throw, told apart by message. *)
Inductive Failure :=
| MissingVariable (key : jsstring)
    (* "Missing environment variable: KEY" *)
| MissingRequired (keys : list jsstring)
    (* "Missing required env var(s): K1, K2" *)
| NotBoolean (key raw : jsstring)
    (* "Environment variable KEY is not a valid boolean: "RAW"" *)
| NotInEnum (key : jsstring) (allowed : list jsstring) (raw : jsstring).
    (* "Environment variable KEY must be one of [...], got "RAW"" *)

(** [ParsedOpts<T>]; an absent field is [None] and takes its default. *)
Record ParsedOpts (T : Type) := {
  required : option bool;
  defVal : option T;
  trimOpt : option bool;
  parser : jsstring -> Failure + T;
}.
Arguments required {T}.
Arguments defVal {T}.
Arguments trimOpt {T}.
Arguments parser {T}.

(** [Env.get<T>(key, opts)] with a parser.  The result is a parsed value or
    [undefined] ([None]: the default of a variable that is not required).
    As above, an unset key with [inheritedKey] is outside the domain. *)
Definition get {T} (p : Process) (key : jsstring) (opts : ParsedOpts T)
  : Failure + option T :=
  let required_ := default true (required opts) in
  let trim_ := default true (trimOpt opts) in
  let raw := cache p !! key in
  let missing :=
    match raw with None => true | Some v => negb (truthy v) end in
  if missing && negb required_ then inr (defVal opts)
  else if missing then inl (MissingVariable key)
  else
    let raw := default [] raw in
    let raw := if trim_ then trim raw else raw in
    match parser opts raw with
    | inr v => inr (Some v)
    | inl e => inl e
    end.

(** [Env.require(...keys)] *)
Definition require (p : Process) (keys : list jsstring) : Failure + unit :=
  let missing := List.filter (fun k => negb (Env.has p k)) keys in
  match missing with
  | [] => inr tt
  | _ => inl (MissingRequired missing)
  end.

(** [list.includes(v)] on strings *)
Definition includes (l : list jsstring) (v : jsstring) : bool :=
  existsb (streq v) l.

(** [Env.getBoolean(key, required = true, def)] *)
Definition getBoolean `{LowerCase} (p : Process) (key : jsstring)
    (required : option bool) (def : option bool) : Failure + option bool :=
  get p key
    {| required := Some (default true required); defVal := def;
       trimOpt := None;
       parser := fun raw =>
         let v := toLowerCase raw in
         if includes [str "true"; str "1"; str "yes"; str "on"] v
         then inr true
         else if includes [str "false"; str "0"; str "no"; str "off"] v
         then inr false
         else inl (NotBoolean key raw) |}.

(** [Env.getEnum(key, allowed, required = true, def)] *)
Definition getEnum (p : Process) (key : jsstring) (allowed : list jsstring)
    (required : option bool) (def : option jsstring)
  : Failure + option jsstring :=
  get p key
    {| required := Some (default true required); defVal := def;
       trimOpt := None;
       parser := fun raw =>
         if includes allowed raw then inr raw
         else inl (NotInEnum key allowed raw) |}.

Fixpoint startsWith (prefix s : jsstring) : bool :=
  match prefix, s with
  | [], _ => true
  | a :: prefix', b :: s' => (a =? b) && startsWith prefix' s'
  | _ :: _, [] => false
  end.

(** The scan of [String.prototype.split] for a separator that is not
    empty: [cur] holds the piece being read, latest character first, and
    [skip] the characters of a matched separator still to pass. *)
Fixpoint splitLoop (sep s : jsstring) (skip : nat) (cur : jsstring)
  : list jsstring :=
  match s with
  | [] => [reverse cur]
  | c :: s' =>
      match skip with
      | S k => splitLoop sep s' k cur
      | O =>
          if startsWith sep s
          then reverse cur :: splitLoop sep s' (length sep - 1) []
          else splitLoop sep s' O (c :: cur)
      end
  end.

(** [s.split(sep)]; the empty separator splits into code units. *)
Definition splitString (sep s : jsstring) : list jsstring :=
  match sep with
  | [] => (fun c => [c]) <$> s
  | _ => splitLoop sep s 0 []
  end.

(** [items.join(sep)] *)
Fixpoint join (sep : jsstring) (items : list jsstring) : jsstring :=
  match items with
  | [] => []
  | [x] => x
  | x :: rest => x ++ sep ++ join sep rest
  end.

(** [Env.getList(key, sep = ",", required = true, map, def)].  The callback
    [map] is read as a function of the item alone; without one the items
    are returned as they are, which is [map = id] here. *)
Definition getList {T} (p : Process) (key : jsstring) (sep : option jsstring)
    (required : option bool) (map : jsstring -> T) (def : option (list T))
  : Failure + option (list T) :=
  get p key
    {| required := Some (default true required); defVal := def;
       trimOpt := None;
       parser := fun raw =>
         let parts :=
           List.filter truthy
             (trim <$> splitString (default (str ",") sep) raw) in
         inr (map <$> parts) |}.

End EnvAccessors.

(** ** The earlier variants of the two classes

    [Env] reads [process.env] on every call and does not trim; [OTP] takes
    the name of a variable, lets the parser's exceptions through, and
    validates the candidate as it is given. *)

Module Legacy.

Inductive Failure :=
| MissingVariable (key : jsstring)
    (* "Missing environment variable: KEY" *)
| ParseFailure (cause : ParseError)
    (* the exception of [OTPAuth.URI.parse], not wrapped *)
| NotTotp (key : jsstring).
    (* the message that names the variable as not a valid otpauth TOTP *)

(** [Env.get(key, required = true)]: [!value] holds for an unset variable
    and for the empty string; [value ?? ""].  [process.env] inherits from
    [Object.prototype] too: an unset key with [inheritedKey] is outside
    the domain. *)
Definition Env_get (p : Process) (key : jsstring) (required : option bool)
  : Failure + jsstring :=
  let value := process_env p !! key in
  if negb (OTP.truthyString value) && default true required
  then inl (MissingVariable key)
  else inr (default [] value).

(** An instance of the earlier [OTP] class. *)
Record t := {
  envKey : jsstring;
  totp : option TOTP;
}.

(** [new OTP(envKey)] *)
Definition new (envKey : jsstring) : t := {| envKey := envKey; totp := None |}.

Definition getTOTP (p : Process) (this : t) : (Failure + TOTP) * t :=
  match totp this with
  | Some cached => (inr cached, this)
  | None =>
      match Env_get p (envKey this) None with
      | inl e => (inl e, this)
      | inr uri_ =>
          match URI_parse uri_ with
          | inl e => (inl (ParseFailure e), this)
          | inr (IsTOTP parsed) =>
              (inr parsed, {| envKey := envKey this; totp := Some parsed |})
          | inr (IsHOTP _) => (inl (NotTotp (envKey this)), this)
          end
      end
  end.

Definition getCode (timestamp : option Z) (p : Process) (this : t)
  : (Failure + jsstring) * t :=
  match getTOTP p this with
  | (inr totp_, this') =>
      (inr (if OTP.truthyNumber timestamp
            then TOTP_generate (now p) totp_ timestamp
            else TOTP_generate (now p) totp_ None), this')
  | (inl e, this') => (inl e, this')
  end.

(** [verify(code, window = 1, timestamp)]: the candidate goes to the
    validator as it is. *)
Definition verify (code : jsstring) (window : option Z) (timestamp : option Z)
    (p : Process) (this : t) : (Failure + bool) * t :=
  match getTOTP p this with
  | (inr totp_, this') =>
      let delta :=
        TOTP_validate (now p) totp_ code (default 1 window) timestamp in
      (inr (bool_decide (is_Some delta)), this')
  | (inl e, this') => (inl e, this')
  end.

Definition refresh (this : t) : t := {| envKey := envKey this; totp := None |}.

End Legacy.

(** * Properties *)

Import OTP.

(** Closed goals about the running example are settled by evaluation. *)
Ltac evaluate := vm_compute; reflexivity.

Ltac conjuncts := repeat match goal with |- _ /\ _ => split end.

(** ** Strings and numbers *)

Lemma streq_spec (a b : jsstring) : streq a b = true <-> a = b.
Proof.
  revert b; induction a as [|x a IH]; intros [|y b]; simpl; try easy.
  rewrite andb_true_iff, Z.eqb_eq, IH. split.
  - intros [-> ->]; reflexivity.
  - intros [= -> ->]; auto.
Qed.

Lemma streq_refl (a : jsstring) : streq a a = true.
Proof. apply streq_spec; reflexivity. Qed.

Lemma decimal_fuel_digits (f : nat) : forall (n : Z) (acc : jsstring),
  0 <= n -> Forall digitChar acc -> Forall digitChar (decimal_fuel f n acc).
Proof.
  induction f as [|f IH]; intros n acc Hn Hacc; simpl; [assumption|].
  assert (Forall digitChar ((48 + n mod 10) :: acc)) as Hacc'.
  { constructor; [|assumption].
    unfold digitChar. pose proof (Z.mod_pos_bound n 10). lia. }
  destruct (n <? 10); [assumption|].
  apply IH; [|assumption]. apply Z.div_pos; lia.
Qed.

Lemma decimal_fuel_length (f : nat) : forall (d : nat) (n : Z) (acc : jsstring),
  (1 <= d)%nat -> 0 <= n < 10 ^ Z.of_nat d ->
  (length (decimal_fuel f n acc) <= length acc + d)%nat.
Proof.
  induction f as [|f IH]; intros d n acc Hd Hn; simpl; [lia|].
  destruct (Z.ltb_spec n 10) as [Hlt|Hge]; simpl; [lia|].
  destruct d as [|[|d]]; [lia| simpl in Hn; lia |].
  specialize (IH (S d) (n / 10) ((48 + n mod 10) :: acc)).
  simpl length in IH. etransitivity; [apply IH|]; try lia.
  split; [apply Z.div_pos; lia|].
  apply Z.div_lt_upper_bound; [lia|].
  replace (Z.of_nat (S (S d))) with (Z.succ (Z.of_nat (S d))) in Hn by lia.
  rewrite Z.pow_succ_r in Hn by lia. lia.
Qed.

(** The decimal rendering reads back as the number: the fuel suffices. *)
Lemma parseDecimal_app (s : jsstring) : forall acc0 : Z,
  fold_left (fun acc c => 10 * acc + (c - 48)) s acc0
  = acc0 * 10 ^ Z.of_nat (length s) + parseDecimal s.
Proof.
  unfold parseDecimal.
  induction s as [|c s IH]; intros acc0; simpl fold_left.
  - simpl. lia.
  - rewrite IH, (IH (10 * 0 + (c - 48))).
    change (length (c :: s)) with (S (length s)).
    rewrite Nat2Z.inj_succ, Z.pow_succ_r by lia. ring.
Qed.

Lemma decimal_fuel_value (f : nat) : forall (n : Z) (acc : jsstring),
  0 <= n < 2 ^ Z.of_nat f ->
  parseDecimal (decimal_fuel f n acc)
  = n * 10 ^ Z.of_nat (length acc) + parseDecimal acc.
Proof.
  induction f as [|f IH]; intros n acc Hn.
  - simpl in *. assert (n = 0) as -> by lia. lia.
  - rewrite Nat2Z.inj_succ, Z.pow_succ_r in Hn by lia.
    simpl decimal_fuel.
    assert (parseDecimal ((48 + n mod 10) :: acc)
            = n mod 10 * 10 ^ Z.of_nat (length acc) + parseDecimal acc) as Hcons.
    { unfold parseDecimal at 1. simpl fold_left.
      rewrite parseDecimal_app. f_equal. f_equal. lia. }
    destruct (Z.ltb_spec n 10) as [Hlt|Hge].
    + rewrite Hcons, Z.mod_small by lia. reflexivity.
    + rewrite IH, Hcons.
      * change (length (_ :: acc)) with (S (length acc)).
        rewrite Nat2Z.inj_succ, Z.pow_succ_r by lia.
        pose proof (Z.div_mod n 10). lia.
      * split; [apply Z.div_pos; lia|].
        apply Z.div_lt_upper_bound; lia.
Qed.

Lemma numberToString_value (n : Z) :
  0 <= n -> parseDecimal (numberToString n) = n.
Proof.
  intros Hn. unfold numberToString. rewrite decimal_fuel_value.
  - simpl. unfold parseDecimal. simpl. lia.
  - split; [assumption|].
    destruct (Z.eq_dec n 0) as [->|Hnz]; [simpl; lia|].
    rewrite Nat2Z.inj_succ, Z2Nat.id by apply Z.log2_nonneg.
    apply Z.log2_spec. lia.
Qed.

Lemma padStart0_length (n : Z) (s : jsstring) :
  Z.of_nat (length s) <= n -> Z.of_nat (length (padStart0 n s)) = n.
Proof.
  intros Hle. unfold padStart0.
  rewrite length_app, length_replicate. lia.
Qed.

Lemma padStart0_digits (n : Z) (s : jsstring) :
  Forall digitChar s -> Forall digitChar (padStart0 n s).
Proof.
  intros Hs. unfold padStart0. apply Forall_app. split; [|assumption].
  apply Forall_replicate. unfold digitChar. lia.
Qed.

Lemma padStart0_value (n : Z) (s : jsstring) :
  parseDecimal (padStart0 n s) = parseDecimal s.
Proof.
  unfold padStart0.
  induction (Z.to_nat (n - Z.of_nat (length s))) as [|k IH]; [reflexivity|].
  simpl replicate. simpl app. unfold parseDecimal in *. simpl fold_left.
  exact IH.
Qed.

(** ** Code generation *)

Lemma HOTP_generate_length (key : bytes) (alg : Algorithm) (digits c : Z) :
  1 <= digits -> Z.of_nat (length (HOTP_generate key alg digits c)) = digits.
Proof.
  intros Hd. unfold HOTP_generate.
  generalize (truncate (hmacDigest alg key (uintDecode c))); intros x.
  apply padStart0_length.
  assert (0 < 10 ^ digits) as Hpos by (apply Z.pow_pos_nonneg; lia).
  pose proof (Z.mod_pos_bound x _ Hpos) as Hb.
  unfold numberToString.
  generalize (S (Z.to_nat (Z.log2 (x mod 10 ^ digits)))); intros fuel.
  pose proof (decimal_fuel_length fuel (Z.to_nat digits) (x mod 10 ^ digits) [])
    as Hlen.
  rewrite Z2Nat.id in Hlen by lia.
  specialize (Hlen ltac:(lia) Hb).
  change (length (@nil Z)) with 0%nat in Hlen. lia.
Qed.

Lemma HOTP_generate_digits (key : bytes) (alg : Algorithm) (digits c : Z) :
  0 <= digits -> Forall digitChar (HOTP_generate key alg digits c).
Proof.
  intros Hd. unfold HOTP_generate.
  generalize (truncate (hmacDigest alg key (uintDecode c))); intros x.
  apply padStart0_digits, decimal_fuel_digits; [|constructor].
  apply Z.mod_pos_bound, Z.pow_pos_nonneg; lia.
Qed.

(** Digit padding: the code reads back as the truncated value modulo
    [10^digits]. *)
Lemma HOTP_generate_value (key : bytes) (alg : Algorithm) (digits c : Z) :
  0 <= digits ->
  parseDecimal (HOTP_generate key alg digits c)
  = truncate (hmacDigest alg key (uintDecode c)) mod 10 ^ digits.
Proof.
  intros Hd. unfold HOTP_generate.
  rewrite padStart0_value, numberToString_value; [reflexivity|].
  apply Z.mod_pos_bound, Z.pow_pos_nonneg; lia.
Qed.

(** Moving an instant by [d] periods moves its counter by [d]. *)
Lemma TOTP_counter_shift (period t d : Z) :
  1 <= period ->
  TOTP_counter period (t + d * period * 1000) = TOTP_counter period t + d.
Proof.
  intros Hp. unfold TOTP_counter.
  replace (t + d * period * 1000) with (t + d * period * 1000) by reflexivity.
  rewrite !Z.div_div by lia.
  replace (t + d * period * 1000) with (t + d * (1000 * period)) by ring.
  rewrite Z.div_add by lia. reflexivity.
Qed.

(** Step boundary: instants of one time step have one code. *)
Lemma TOTP_generate_step (now : Z) (spec : TOTP) (t t' : Z) :
  TOTP_counter (period spec) t = TOTP_counter (period spec) t' ->
  TOTP_generate now spec (Some t) = TOTP_generate now spec (Some t').
Proof. unfold TOTP_generate; simpl. intros ->. reflexivity. Qed.

(** ** Token normalisation *)

Lemma digitChar_not_whitespace (c : Z) : digitChar c -> isWhiteSpace c = false.
Proof. unfold digitChar, isWhiteSpace. intros Hc. lia. Qed.

Section NormalizeFacts.
Context `{Builtins}.

Lemma toAsciiDigits_digits (s : jsstring) :
  Forall digitChar s -> toAsciiDigits s = s.
Proof.
  intros Hs. unfold toAsciiDigits.
  induction Hs as [|c s Hc _ IH]; [reflexivity|].
  rewrite fmap_cons, IH. f_equal.
  unfold digitChar in Hc.
  destruct (Z.leb_spec 0xFF10 c); [lia|reflexivity].
Qed.

Lemma removeWhiteSpace_digits (s : jsstring) :
  Forall digitChar s -> removeWhiteSpace s = s.
Proof.
  intros Hs. unfold removeWhiteSpace.
  induction Hs as [|c s Hc _ IH]; [reflexivity|].
  rewrite filter_cons_True by (apply digitChar_not_whitespace, Hc).
  f_equal. exact IH.
Qed.

Lemma toUpperCase_digits (s : jsstring) :
  Forall digitChar s -> toUpperCase s = s.
Proof.
  intros Hs. rewrite toUpperCase_ascii.
  - induction Hs as [|c s Hc _ IH]; [reflexivity|].
    rewrite fmap_cons, IH. f_equal.
    unfold upperAscii, digitChar in *.
    destruct (Z.leb_spec 97 c); [lia|reflexivity].
  - eapply Forall_impl; [exact Hs|].
    unfold digitChar, isAscii. intros; lia.
Qed.

(** A string of ASCII digits is its own normal form. *)
Lemma normalizeToken_digits (s : jsstring) :
  Forall digitChar s -> normalizeToken s = s.
Proof.
  intros Hs. unfold normalizeToken.
  rewrite toAsciiDigits_digits, removeWhiteSpace_digits by assumption.
  apply toUpperCase_digits, Hs.
Qed.

End NormalizeFacts.

(** ** Validation *)

Lemma searchWindow_spec (check : Z -> bool) (counter : Z) (n : nat) :
  forall i : Z, 1 <= i ->
  match searchWindow check counter i n with
  | Some d =>
      i <= Z.abs d < i + Z.of_nat n /\ check (counter + d) = true
      /\ forall j, i <= Z.abs j -> precedes j d -> check (counter + j) = false
  | None =>
      forall j, i <= Z.abs j < i + Z.of_nat n -> check (counter + j) = false
  end.
Proof.
  induction n as [|n IH]; intros i Hi; simpl searchWindow.
  - intros j Hj. lia.
  - destruct (check (counter - i)) eqn:Hminus.
    { split; [lia|]. split.
      - replace (counter + - i) with (counter - i) by lia. exact Hminus.
      - unfold precedes. intros j Hj [Hlt|[_ Hneg]]; lia. }
    destruct (check (counter + i)) eqn:Hplus.
    { split; [lia|]. split; [exact Hplus|].
      unfold precedes. intros j Hj [Hlt|[-> _]]; [lia|].
      replace (counter + - i) with (counter - i) by lia. exact Hminus. }
    specialize (IH (i + 1) ltac:(lia)).
    assert (forall j, Z.abs j = i -> check (counter + j) = false) as Hhere.
    { intros j Hj.
      destruct (Z.abs_spec j) as [[_ Hj']|[_ Hj']]; rewrite Hj' in Hj.
      - subst j. exact Hplus.
      - replace (counter + j) with (counter - i) by lia. exact Hminus. }
    destruct (searchWindow check counter (i + 1) n) as [d|].
    + destruct IH as (Hd & Hcheck & Hfirst).
      split; [lia|]. split; [exact Hcheck|].
      intros j Hj Hprec.
      destruct (Z.eq_dec (Z.abs j) i) as [Heq|Hne]; [apply Hhere, Heq|].
      apply Hfirst; [lia|exact Hprec].
    + intros j Hj.
      destruct (Z.eq_dec (Z.abs j) i) as [Heq|Hne]; [apply Hhere, Heq|].
      apply IH. lia.
Qed.

(** The validator returns the first offset, in its order of comparison,
    whose code is the token, and none when no offset of the window has it. *)
Lemma HOTP_validate_spec (token : jsstring) (key : bytes) (alg : Algorithm)
    (digits counter window : Z) :
  Z.of_nat (length token) = digits -> 0 <= window ->
  match HOTP_validate token key alg digits counter window with
  | Some d =>
      Z.abs d <= window
      /\ token = HOTP_generate key alg digits (counter + d)
      /\ forall j, precedes j d ->
                   token <> HOTP_generate key alg digits (counter + j)
  | None =>
      forall j, Z.abs j <= window ->
                token <> HOTP_generate key alg digits (counter + j)
  end.
Proof.
  intros Hlen Hw. unfold HOTP_validate.
  rewrite (proj2 (Z.eqb_eq _ _) Hlen). cbv beta iota zeta delta [negb].
  set (check := fun i => streq token (HOTP_generate key alg digits i)).
  assert (forall i, check i = false ->
                    token <> HOTP_generate key alg digits i) as Hno.
  { intros i Hi Heq. apply streq_spec in Heq. unfold check in Hi. congruence. }
  destruct (check counter) eqn:H0;
    pose proof H0 as H0'; unfold check in H0'; rewrite H0'; clear H0'.
  - split; [lia|]. split.
    + rewrite Z.add_0_r. apply streq_spec, H0.
    + unfold precedes. intros j [Hj|[_ Hj]]; lia.
  - pose proof (searchWindow_spec check counter (Z.to_nat window) 1 ltac:(lia))
      as Hs.
    destruct (searchWindow check counter 1 (Z.to_nat window)) as [d|].
    + destruct Hs as (Hd & Hcheck & Hfirst).
      split; [lia|]. split; [apply streq_spec, Hcheck|].
      intros j Hprec. apply Hno.
      destruct (Z.eq_dec j 0) as [->|Hj].
      * rewrite Z.add_0_r. exact H0.
      * apply Hfirst; [lia|exact Hprec].
    + intros j Hj. apply Hno.
      destruct (Z.eq_dec j 0) as [->|Hj0].
      * rewrite Z.add_0_r. exact H0.
      * apply Hs. lia.
Qed.

Lemma HOTP_validate_wrong_length (token : jsstring) (key : bytes)
    (alg : Algorithm) (digits counter window : Z) :
  Z.of_nat (length token) <> digits ->
  HOTP_validate token key alg digits counter window = None.
Proof.
  intros Hlen. unfold HOTP_validate.
  destruct (Z.eqb_spec (Z.of_nat (length token)) digits); [contradiction|].
  reflexivity.
Qed.

(** A token with a character that is not an ASCII digit matches no code. *)
Lemma HOTP_validate_not_numeric (token : jsstring) (key : bytes)
    (alg : Algorithm) (digits counter window : Z) :
  0 <= digits -> ~ Forall digitChar token ->
  HOTP_validate token key alg digits counter window = None.
Proof.
  intros Hd Hnot. unfold HOTP_validate.
  destruct (negb _); [reflexivity|]. cbv zeta.
  assert (forall i, streq token (HOTP_generate key alg digits i) = false)
    as Hno.
  { intros i. destruct (streq _ _) eqn:Heq; [|reflexivity].
    apply streq_spec in Heq. exfalso. apply Hnot. rewrite Heq.
    apply HOTP_generate_digits, Hd. }
  rewrite Hno.
  generalize 1 at 1. induction (Z.to_nat window) as [|n IH]; intros i.
  - reflexivity.
  - simpl. rewrite !Hno. apply IH.
Qed.

(** ** The engine: resolution and caching *)

Lemma getUri_state (p : Process) (this : t) : (getUri p this).2 = this.
Proof.
  unfold getUri, bind, self, process, lift, ret, throw.
  destruct (truthyString (uri this) && truthy (trim (default [] (uri this))));
    [reflexivity|].
  destruct (truthyString (envKey this)); [|reflexivity].
  destruct (Env.getString p _ None None); reflexivity.
Qed.

(** What the resolver returns, case by case. *)
Lemma getUri_spec (p : Process) (this : t) :
  (getUri p this).1 =
    if truthyString (uri this) && truthy (trim (default [] (uri this)))
    then inr (trim (default [] (uri this)))
    else if truthyString (envKey this) then
      match cache p !! default [] (envKey this) with
      | Some (c :: v) => inr (trim (c :: v))
      | _ => inl (MissingEnvironmentVariable (default [] (envKey this)))
      end
    else inl NoUriOrEnvKey.
Proof.
  unfold getUri, bind, self, process, lift, ret, throw.
  destruct (truthyString (uri this) && truthy (trim (default [] (uri this))));
    [reflexivity|].
  destruct (truthyString (envKey this)); [|reflexivity].
  unfold Env.getString, Env.get. simpl.
  destruct (cache p !! default [] (envKey this)) as [[|c v]|]; reflexivity.
Qed.

Lemma getTOTP_hit (p : Process) (this : t) (spec : TOTP) :
  totp this = Some spec -> getTOTP p this = (inr spec, this).
Proof. intros Hc. unfold getTOTP, bind, self. rewrite Hc. reflexivity. Qed.

(** A miss resolves and parses the provisioning string. *)
Lemma getTOTP_miss (p : Process) (this : t) :
  totp this = None ->
  getTOTP p this =
    match (getUri p this).1 with
    | inl e => (inl e, this)
    | inr u =>
        match URI_parse u with
        | inl e => (inl (InvalidOtpauthUri (source this) e), this)
        | inr (IsTOTP parsed) =>
            (inr parsed,
             {| uri := uri this; envKey := envKey this; totp := Some parsed |})
        | inr (IsHOTP _) => (inl (NotTotpConfiguration (source this)), this)
        end
    end.
Proof.
  intros Hc. unfold getTOTP, bind, self. rewrite Hc.
  pose proof (getUri_state p this) as Hst.
  destruct (getUri p this) as [[e|u] this0]; simpl in Hst; subst this0; simpl.
  - reflexivity.
  - unfold throw. destruct (URI_parse u) as [e|[parsed|h]]; reflexivity.
Qed.

(** After a successful call the spec sits in the cache slot, and the next
    call returns it without resolving anything. *)
Lemma getTOTP_caches (p : Process) (this this' : t) (spec : TOTP) :
  getTOTP p this = (inr spec, this') ->
  totp this' = Some spec /\ uri this' = uri this /\ envKey this' = envKey this.
Proof.
  intros Hget. destruct (totp this) as [cached|] eqn:Hc.
  - rewrite (getTOTP_hit _ _ _ Hc) in Hget. injection Hget as <- <-. auto.
  - rewrite (getTOTP_miss _ _ Hc) in Hget.
    destruct (getUri p this).1 as [e|u]; [discriminate|].
    destruct (URI_parse u) as [e|[parsed|h]]; try discriminate.
    injection Hget as <- <-. auto.
Qed.

Lemma getTOTP_again (p q : Process) (this this' : t) (spec : TOTP) :
  getTOTP p this = (inr spec, this') -> getTOTP q this' = (inr spec, this').
Proof.
  intros Hget. apply getTOTP_hit. apply (getTOTP_caches _ _ _ _ Hget).
Qed.

(** A failed call leaves the instance as it was. *)
Lemma getTOTP_throws (p : Process) (this this' : t) (e : Error) :
  getTOTP p this = (inl e, this') -> this' = this.
Proof.
  intros Hget. destruct (totp this) as [cached|] eqn:Hc.
  - rewrite (getTOTP_hit _ _ _ Hc) in Hget. discriminate.
  - rewrite (getTOTP_miss _ _ Hc) in Hget.
    destruct (getUri p this).1 as [e0|u]; [congruence|].
    destruct (URI_parse u) as [e0|[parsed|h]]; congruence.
Qed.

Lemma getCode_returns (p : Process) (this this' : t) (spec : TOTP)
    (timestamp : option Z) :
  getTOTP p this = (inr spec, this') ->
  getCode timestamp p this =
    (inr (if truthyNumber timestamp
          then TOTP_generate (now p) spec timestamp
          else TOTP_generate (now p) spec None), this').
Proof.
  intros Hget. unfold getCode, bind, process, ret. rewrite Hget. reflexivity.
Qed.

Lemma getCode_throws (p : Process) (this this' : t) (e : Error)
    (timestamp : option Z) :
  getTOTP p this = (inl e, this') -> getCode timestamp p this = (inl e, this').
Proof. intros Hget. unfold getCode, bind. rewrite Hget. reflexivity. Qed.

Section Verify.
Context `{Builtins}.

Lemma verify_returns (p : Process) (this this' : t) (spec : TOTP)
    (code : jsstring) (window timestamp : option Z) :
  getTOTP p this = (inr spec, this') ->
  verify code window timestamp p this =
    (inr (if truthy code then
            match TOTP_validate (now p) spec (normalizeToken code)
                    (default 1 window) timestamp with
            | Some d => accepted d
            | None => rejected "Invalid or out-of-window token"
            end
          else rejected "Empty or non-string code"), this').
Proof.
  intros Hget. unfold verify, bind, process, ret. rewrite Hget.
  destruct (truthy code); simpl; [|reflexivity].
  destruct (TOTP_validate _ _ _ _ _); reflexivity.
Qed.

Lemma verify_throws (p : Process) (this this' : t) (e : Error)
    (code : jsstring) (window timestamp : option Z) :
  getTOTP p this = (inl e, this') ->
  verify code window timestamp p this = (inl e, this').
Proof. intros Hget. unfold verify, bind. rewrite Hget. reflexivity. Qed.

(** The boolean entry point is the [ok] field of the structured result. *)
Lemma verifyBool_ok (p : Process) (this : t) (code : jsstring)
    (window timestamp : option Z) :
  (verifyBool code window timestamp p this).1
  = match (verify code window timestamp p this).1 with
    | inr r => inr (ok r)
    | inl e => inl e
    end.
Proof.
  unfold verifyBool, bind, ret.
  destruct (verify code window timestamp p this) as [[e|r] this']; reflexivity.
Qed.

End Verify.

Lemma demo_getTOTP :
  getTOTP demo_process (fromUri demo_uri) = (inr demo_spec, demo_engine).
Proof. evaluate. Qed.

Lemma demo_valid : valid_spec demo_spec.
Proof. unfold valid_spec. simpl. conjuncts; try lia. discriminate. Qed.

(** ** Code generation through the engine *)

(** The library derivation is the reference derivation. *)
Lemma TOTP_generate_rfc6238 (now : Z) (spec : TOTP) (t : Z) :
  TOTP_generate now spec (Some t) = rfc6238 spec t.
Proof. reflexivity. Qed.

(** For every instant other than the epoch, [getCode] is the reference
    derivation of RFC 6238. *)
Lemma getCode_rfc6238 (p : Process) (this this' : t) (spec : TOTP) (t : Z) :
  getTOTP p this = (inr spec, this') -> t <> 0 ->
  getCode (Some t) p this = (inr (rfc6238 spec t), this').
Proof.
  intros Hget Ht. rewrite (getCode_returns _ _ _ _ _ Hget).
  unfold truthyNumber. destruct (Z.eqb_spec t 0); [contradiction|].
  reflexivity.
Qed.

(** Without a timestamp the code is that of the clock. *)
Lemma getCode_now (p : Process) (this this' : t) (spec : TOTP) :
  getTOTP p this = (inr spec, this') ->
  getCode None p this = (inr (rfc6238 spec (now p)), this').
Proof. intros Hget. rewrite (getCode_returns _ _ _ _ _ Hget). reflexivity. Qed.

(** X20: Determinism and step boundary, through the engine. *)
Lemma getCode_step (p q : Process) (this this' : t) (spec : TOTP) (t1 t2 : Z) :
  getTOTP p this = (inr spec, this') -> t1 <> 0 -> t2 <> 0 ->
  t1 / 1000 / period spec = t2 / 1000 / period spec ->
  (getCode (Some t1) p this).1 = (getCode (Some t2) q this').1.
Proof.
  intros Hget H1 H2 Hstep.
  rewrite (getCode_rfc6238 _ _ _ _ _ Hget H1).
  rewrite (getCode_rfc6238 _ _ _ _ _ (getTOTP_again p q _ _ _ Hget) H2).
  unfold rfc6238. simpl. rewrite Hstep. reflexivity.
Qed.

(** The golden vector of the end-to-end scenario, at [T] = 59 s: the code
    of counter 1 for the secret [JBSWY3DPEHPK3PXP]. *)
Lemma getCode_golden :
  (getCode (Some 59000) demo_process (fromUri demo_uri)).1
  = inr (str "996554")
  /\ (getCode (Some 59000) demo_process (fromEnv demo_key)).1
     = inr (str "996554").
Proof. conjuncts; evaluate. Qed.

(** Its second half: thirty seconds later the code is one step old. *)
Lemma verify_golden :
  (verify (str "996554") (Some 1) (Some 89000) demo_process
     (fromUri demo_uri)).1 = inr (accepted (-1)).
Proof. vm_compute. reflexivity. Qed.

(** The test vectors of RFC 6238, appendix B, for the three algorithms. *)
Lemma rfc6238_test_vectors :
  HOTP_generate (str "12345678901234567890") SHA1 8 <$> [1; 37037036; 41152263]
  = [str "94287082"; str "07081804"; str "89005924"]
  /\ HOTP_generate (str "12345678901234567890123456789012") SHA256 8
       <$> [1; 37037036; 41152263]
     = [str "46119246"; str "68084774"; str "91819424"]
  /\ HOTP_generate
       (str "1234567890123456789012345678901234567890123456789012345678901234")
       SHA512 8 <$> [1; 37037036; 41152263]
     = [str "90693936"; str "25091201"; str "93441116"].
Proof. conjuncts; evaluate. Qed.

(** C1, evaluated where the code departs from it.  The claim: for every
    valid TotpSpec and instant [t], [getCode(t)] is the RFC 6238 reference
    derivation at [t].  At the instant 0 (the Unix epoch) the timestamp is
    falsy, [getCode] generates for the clock instead: with the clock at
    1700000000000 ms the engine of the scenario returns the code of the
    current step, 324550, while the reference derivation at instant 0 is
    282760. *)
Theorem getCode_epoch_is_not_rfc6238 :
  valid_spec demo_spec
  /\ getTOTP demo_process (fromUri demo_uri) = (inr demo_spec, demo_engine)
  /\ (getCode (Some 0) demo_process (fromUri demo_uri)).1
     = inr (str "324550")
  /\ rfc6238 demo_spec 0 = str "282760"
  /\ rfc6238 demo_spec (now demo_process) = str "324550".
Proof.
  split; [exact demo_valid|]. split; [exact demo_getTOTP|].
  split; [evaluate|]. split; evaluate.
Qed.

(** C10: [getCode(0)] behaves as [getCode()].  With the explicit timestamp
    0 the engine returns, in every process and on every instance, what it
    returns without a timestamp; on an instance that holds a spec this is
    the code of the current clock, not the code of instant 0. *)
Theorem getCode_zero_is_now (p : Process) (this : t) (spec : TOTP) :
  getCode (Some 0) p this = getCode None p this
  /\ getCode (Some 0) p
       {| uri := uri this; envKey := envKey this; totp := Some spec |}
     = (inr (rfc6238 spec (now p)),
        {| uri := uri this; envKey := envKey this; totp := Some spec |}).
Proof. split; reflexivity. Qed.

(** ** Round trip *)

Section RoundTrip.
Context `{Builtins}.

(** A code that the engine generated is accepted at its own instant, with
    offset 0, whatever the window. *)
Lemma verify_own_code (p : Process) (this this' : t) (spec : TOTP)
    (window : Z) (t : Z) :
  getTOTP p this = (inr spec, this') -> valid_spec spec ->
  verify (rfc6238 spec t) (Some window) (Some t) p this
  = (inr (accepted 0), this').
Proof.
  intros Hget (Hd & Hp & _).
  rewrite (verify_returns _ _ _ _ _ _ _ Hget).
  assert (Forall digitChar (rfc6238 spec t)) as Hdig
    by (apply HOTP_generate_digits; lia).
  assert (Z.of_nat (length (rfc6238 spec t)) = digits spec) as Hlen
    by (apply HOTP_generate_length; lia).
  assert (truthy (rfc6238 spec t) = true) as ->.
  { destruct (rfc6238 spec t); [simpl in Hlen; lia|reflexivity]. }
  rewrite normalizeToken_digits by exact Hdig.
  unfold TOTP_validate, HOTP_validate. rewrite Hlen, Z.eqb_refl. simpl.
  change (HOTP_generate (secret spec) (algorithm spec) (digits spec)
            (TOTP_counter (period spec) t)) with (rfc6238 spec t).
  rewrite streq_refl. reflexivity.
Qed.

(** X21: Round trip, for every instant other than the epoch. *)
Lemma roundtrip_nonzero (p : Process) (this this' : t) (spec : TOTP) (t : Z) :
  getTOTP p this = (inr spec, this') -> valid_spec spec -> t <> 0 ->
  exists code,
    getCode (Some t) p this = (inr code, this')
    /\ verify code (Some 0) (Some t) p this' = (inr (accepted 0), this').
Proof.
  intros Hget Hvalid Ht. exists (rfc6238 spec t). split.
  - apply getCode_rfc6238; assumption.
  - apply verify_own_code; [|exact Hvalid].
    apply (getTOTP_again p p _ _ _ Hget).
Qed.

End RoundTrip.

(** C5, evaluated where the code departs from it.  The claim: for every
    valid TotpSpec and every instant [t],
    [verify(getCode(t), window=0, instant=t)] is [ok=true] with [delta=0].
    At [t = 0], [getCode(0)] is the code of the clock (324550 at
    1700000000000 ms) while [verify] validates against the step of instant
    0 (code 282760): the result is [ok=false]. *)
Theorem roundtrip_fails_at_epoch :
  valid_spec demo_spec
  /\ getCode (Some 0) demo_process (fromUri demo_uri)
     = (inr (str "324550"), demo_engine)
  /\ verify (str "324550") (Some 0) (Some 0) demo_process demo_engine
     = (inr (rejected "Invalid or out-of-window token"), demo_engine).
Proof.
  split; [exact demo_valid|]. split; [evaluate|]. evaluate.
Qed.

(** ** Window tolerance *)

Lemma precedes_total (j d : Z) : j = d \/ precedes j d \/ precedes d j.
Proof. unfold precedes. lia. Qed.

Lemma rfc6238_shift (spec : TOTP) (t d : Z) :
  1 <= period spec ->
  rfc6238 spec (t + d * period spec * 1000)
  = code_at spec (TOTP_counter (period spec) t + d).
Proof.
  intros Hp. unfold code_at. rewrite <- TOTP_counter_shift by exact Hp.
  reflexivity.
Qed.

(** A counterexample to C6 as stated, for the secret of the scenario with
    6 digits and a period of 30 s.  The codes of counters 56666850 and
    56666914 are both 712301: a code generated 64 periods away is accepted
    with a window of 1, at offset 0.  The codes of counters 56885100 and
    56885102 are both 256847: the code generated one period ahead is
    reported at offset -1, not +1. *)
Lemma window_claim_counterexample :
  (getCode (Some (1700005500000 + 64 * 30 * 1000)) demo_process
     (fromUri demo_uri) = (inr (str "712301"), demo_engine)
   /\ 1 < Z.abs 64
   /\ verify (str "712301") (Some 1) (Some 1700005500000) demo_process
        demo_engine
      = (inr (accepted 0), demo_engine))
  /\ (getCode (Some (1706553030000 + 1 * 30 * 1000)) demo_process
        (fromUri demo_uri) = (inr (str "256847"), demo_engine)
      /\ Z.abs 1 <= 1
      /\ verify (str "256847") (Some 1) (Some 1706553030000) demo_process
           demo_engine
         = (inr (accepted (-1)), demo_engine)).
Proof.
  split.
  - split; [evaluate|]. split; [lia|evaluate].
  - split; [evaluate|]. split; [lia|evaluate].
Qed.

(** C6, amended.  For a valid TotpSpec, an instant [t] in milliseconds, a
    window [>= 0] and an offset [d] such that the shifted instant
    [t + d * period] (in milliseconds: [t + d * period * 1000]) is not 0:
    [getCode] of the shifted instant is the code of step [c + d], and
    [verify] of that code at [t] answers with the first offset, in the
    order 0, -1, +1, -2, +2, ..., of the window whose code is the candidate.
    So the answer is [ok=true] whenever [|d| <= window]; its [delta] is [d]
    or an offset compared before [d] that has the same code, and it is [d]
    when no such offset exists.  The answer is [ok=false], without delta and
    with the reason "Invalid or out-of-window token", exactly when no offset of
    the window has the candidate's code, which requires [|d| > window]. *)
Theorem verify_window `{Builtins} (p : Process) (this this' : t)
    (spec : TOTP) (window t d : Z) :
  getTOTP p this = (inr spec, this') ->
  valid_spec spec ->
  0 <= window ->
  t + d * period spec * 1000 <> 0 ->
  let c := TOTP_counter (period spec) t in
  let code := code_at spec (c + d) in
  getCode (Some (t + d * period spec * 1000)) p this = (inr code, this')
  /\ ((exists d',
         verify code (Some window) (Some t) p this'
         = (inr (accepted d'), this')
         /\ Z.abs d' <= window
         /\ code_at spec (c + d') = code
         /\ (d' = d \/ precedes d' d)
         /\ forall j, precedes j d' -> code_at spec (c + j) <> code)
      \/ (verify code (Some window) (Some t) p this'
          = (inr (rejected "Invalid or out-of-window token"), this')
          /\ window < Z.abs d
          /\ forall j, Z.abs j <= window -> code_at spec (c + j) <> code))
  /\ (Z.abs d <= window ->
      (forall j, precedes j d -> code_at spec (c + j) <> code) ->
      verify code (Some window) (Some t) p this' = (inr (accepted d), this')).
Proof.
  intros Hget Hvalid Hw Hts c code.
  pose proof Hvalid as (Hd & Hp & _).
  assert (getCode (Some (t + d * period spec * 1000)) p this
          = (inr code, this')) as Hcode.
  { rewrite (getCode_rfc6238 _ _ _ _ _ Hget Hts).
    rewrite rfc6238_shift by exact Hp. reflexivity. }
  assert (Forall digitChar code) as Hdig
    by (apply HOTP_generate_digits; lia).
  assert (Z.of_nat (length code) = digits spec) as Hlen
    by (apply HOTP_generate_length; lia).
  assert (truthy code = true) as Htruthy.
  { destruct code; [simpl in Hlen; lia|reflexivity]. }
  pose proof (verify_returns p this' this' spec code (Some window) (Some t)
                (getTOTP_again p p _ _ _ Hget)) as Hver.
  rewrite Htruthy, normalizeToken_digits in Hver by exact Hdig.
  unfold TOTP_validate in Hver. simpl default in Hver.
  fold c in Hver.
  pose proof (HOTP_validate_spec code (secret spec) (algorithm spec)
                (digits spec) c window Hlen Hw) as Hspec.
  destruct (HOTP_validate code (secret spec) (algorithm spec) (digits spec)
              c window) as [d'|].
  - destruct Hspec as (Hin & Hmatch & Hfirst).
    assert (d' = d \/ precedes d' d) as Horder.
    { destruct (precedes_total d' d) as [Heq|[Hlt|Hgt]]; auto.
      exfalso. apply (Hfirst d Hgt). reflexivity. }
    split; [exact Hcode|]. split.
    + left. exists d'. conjuncts; auto.
      intros j Hj Heq. apply (Hfirst j Hj). symmetry. exact Heq.
    + intros _ Hnone. destruct Horder as [->|Hprec]; [exact Hver|].
      exfalso. apply (Hnone d' Hprec). symmetry. exact Hmatch.
  - assert (window < Z.abs d) as Hout.
    { destruct (Z.lt_ge_cases window (Z.abs d)) as [Hlt|Hge]; [exact Hlt|].
      exfalso. apply (Hspec d Hge). reflexivity. }
    split; [exact Hcode|]. split.
    + right. conjuncts; auto.
      intros j Hj Heq. apply (Hspec j Hj). symmetry. exact Heq.
    + intros Hin. lia.
Qed.

(** The theorem at the scenario: the code of one period ahead is accepted
    with offset +1 under a window of 1, the codes of the two steps compared
    before it being different. *)
Lemma verify_window_witness :
  verify (code_at demo_spec (TOTP_counter 30 1700000000000 + 1)) (Some 1)
    (Some 1700000000000) demo_process demo_engine
  = (inr (accepted 1), demo_engine).
Proof.
  refine (proj2 (proj2 (verify_window demo_process (fromUri demo_uri) _
                          demo_spec 1 1700000000000 1 demo_getTOTP demo_valid
                          _ _)) _ _).
  - lia.
  - simpl. lia.
  - lia.
  - intros j Hj.
    assert (j = 0 \/ j = -1) as [-> | ->] by (unfold precedes in Hj; lia).
    + vm_compute. discriminate.
    + vm_compute. discriminate.
Defined.

(** ** The normaliser *)

Lemma removeWhiteSpace_trimStart (s : jsstring) :
  removeWhiteSpace (trimStart s) = removeWhiteSpace s.
Proof.
  unfold removeWhiteSpace. induction s as [|c s IH]; [reflexivity|].
  simpl trimStart. destruct (isWhiteSpace c) eqn:Hc; [|reflexivity].
  rewrite filter_cons_False by (rewrite Hc; discriminate). exact IH.
Qed.

Lemma removeWhiteSpace_trimEnd (s : jsstring) :
  removeWhiteSpace (trimEnd s) = removeWhiteSpace s.
Proof.
  unfold trimEnd.
  transitivity (reverse (removeWhiteSpace (trimStart (reverse s)))).
  - unfold removeWhiteSpace. apply filter_reverse.
  - rewrite removeWhiteSpace_trimStart. unfold removeWhiteSpace.
    rewrite filter_reverse. apply reverse_involutive.
Qed.

Lemma removeWhiteSpace_trim (s : jsstring) :
  removeWhiteSpace (trim s) = removeWhiteSpace s.
Proof.
  unfold trim. rewrite removeWhiteSpace_trimEnd.
  apply removeWhiteSpace_trimStart.
Qed.

(** Rewriting full-width digits neither makes nor unmakes white space. *)
Lemma removeWhiteSpace_toAsciiDigits (s : jsstring) :
  removeWhiteSpace (toAsciiDigits s) = toAsciiDigits (removeWhiteSpace s).
Proof.
  unfold removeWhiteSpace, toAsciiDigits.
  induction s as [|c s IH]; [reflexivity|].
  rewrite fmap_cons.
  assert (isWhiteSpace
            (if (0xFF10 <=? c) && (c <=? 0xFF19) then c - 0xFF10 + 0x30 else c)
          = isWhiteSpace c) as Hws.
  { destruct (Z.leb_spec 0xFF10 c), (Z.leb_spec c 0xFF19); simpl;
      try reflexivity.
    unfold isWhiteSpace. lia. }
  destruct (isWhiteSpace c) eqn:Hc.
  - rewrite !filter_cons_False by (rewrite ?Hws, ?Hc; discriminate). exact IH.
  - rewrite !filter_cons_True by (rewrite ?Hws, ?Hc; reflexivity).
    rewrite fmap_cons, IH. reflexivity.
Qed.

Lemma toAsciiDigits_trim_removeWhiteSpace (s : jsstring) :
  removeWhiteSpace (toAsciiDigits (trim s))
  = removeWhiteSpace (toAsciiDigits s).
Proof.
  rewrite !removeWhiteSpace_toAsciiDigits, removeWhiteSpace_trim.
  reflexivity.
Qed.

(** The replacement the code computes is the table of the ten full-width
    digits. *)
Lemma asciiDigit_spec (c : Z) :
  asciiDigit c
  = if (0xFF10 <=? c) && (c <=? 0xFF19) then c - 0xFF10 + 0x30 else c.
Proof.
  unfold asciiDigit, fullWidthDigits. cbn [find fst snd].
  repeat match goal with
         | |- context [?a =? c] =>
             destruct (Z.eqb_spec a c) as [Heq|?]; [subst c; reflexivity|]
         end.
  destruct (Z.leb_spec 0xFF10 c), (Z.leb_spec c 0xFF19); simpl;
    reflexivity || lia.
Qed.

Lemma toAsciiDigits_table `{Builtins} (s : jsstring) :
  toAsciiDigits s = asciiDigit <$> s.
Proof.
  unfold toAsciiDigits. apply list_fmap_ext. intros i c _.
  symmetry. apply asciiDigit_spec.
Qed.

Lemma dropWhiteSpace_filter (s : jsstring) :
  dropWhiteSpace s = removeWhiteSpace s.
Proof.
  unfold removeWhiteSpace. induction s as [|c s IH]; [reflexivity|].
  simpl dropWhiteSpace. destruct (isWhiteSpace c) eqn:Hc.
  - rewrite filter_cons_False by (rewrite Hc; discriminate). exact IH.
  - rewrite filter_cons_True by exact Hc. rewrite IH. reflexivity.
Qed.

(** C7: the token normaliser is a total function, and it is the function
    the specification describes, here written without the code's own
    steps ([normalize_spec]): surrounding white space trimmed, each
    full-width digit replaced by its ASCII digit, the remaining white space
    dropped, upper case.  So the full-width candidate
    [" １２３ 　４５６\n"] normalises to ["123456"], the candidate
    [" ab 12\tcd "] to ["AB12CD"], and [verify] of [" 123456 "] is [verify]
    of ["123456"], result and instance alike, for every process, instance,
    window and instant. *)
Theorem normalizeToken_total_and_trim_insensitive `{Builtins}
    (p : Process) (this : t) (window timestamp : option Z) (s : jsstring) :
  normalizeToken s = normalize_spec s
  /\ normalizeToken [0x20; 0xFF11; 0xFF12; 0xFF13; 0x20; 0x3000;
                     0xFF14; 0xFF15; 0xFF16; 0x0A]
     = str "123456"
  /\ normalizeToken [0x20; 0x61; 0x62; 0x20; 0x31; 0x32; 0x09; 0x63; 0x64; 0x20]
     = str "AB12CD"
  /\ normalizeToken (str " 123456 ") = normalizeToken (str "123456")
  /\ verify (str " 123456 ") window timestamp p this
     = verify (str "123456") window timestamp p this.
Proof.
  assert (normalizeToken (str " 123456 ") = normalizeToken (str "123456"))
    as Hnorm by reflexivity.
  split; [|split; [|split; [|split; [exact Hnorm|]]]].
  - unfold normalizeToken, normalize_spec.
    rewrite dropWhiteSpace_filter, <- toAsciiDigits_table.
    rewrite toAsciiDigits_trim_removeWhiteSpace. reflexivity.
  - unfold normalizeToken.
    change (toUpperCase (str "123456") = str "123456").
    apply toUpperCase_digits.
    change (Forall digitChar [49; 50; 51; 52; 53; 54]).
    repeat (constructor; [unfold digitChar; lia|]). constructor.
  - unfold normalizeToken.
    change (toUpperCase [0x61; 0x62; 0x31; 0x32; 0x63; 0x64] = str "AB12CD").
    rewrite toUpperCase_ascii; [reflexivity|].
    repeat (constructor; [unfold isAscii; lia|]). constructor.
  - unfold verify, bind. destruct (getTOTP p this) as [[e|spec] this'].
    + reflexivity.
    + simpl. rewrite Hnorm. reflexivity.
Qed.

(** ** Malformed candidates *)

(** A counterexample to C4 as stated: a candidate of three spaces
    normalises to the empty string, and [verify] answers with the reason of
    a code outside the window, the answer it gives to the well-formed wrong
    code 000000, not with the reason "Empty or non-string code" that it
    gives to the empty candidate. *)
Lemma blank_candidate_counterexample :
  normalizeToken (str "   ") = []
  /\ (verify (str "   ") (Some 1) (Some 59000) demo_process
        (fromUri demo_uri)).1
     = inr (rejected "Invalid or out-of-window token")
  /\ (verify (str "000000") (Some 1) (Some 59000) demo_process
        (fromUri demo_uri)).1
     = inr (rejected "Invalid or out-of-window token")
  /\ (verify [] (Some 1) (Some 59000) demo_process (fromUri demo_uri)).1
     = inr (rejected "Empty or non-string code")
  /\ rejected "Invalid or out-of-window token"
     <> rejected "Empty or non-string code".
Proof.
  split; [reflexivity|]. split; [evaluate|]. split; [evaluate|].
  split; [evaluate|]. discriminate.
Qed.

(** C4, amended.  On an engine whose spec resolves, with [digits >= 1]:
    [verify] rejects with the reason "Empty or non-string code" when the
    candidate itself is the empty string, which it checks before
    normalising.  A non-empty candidate is normalised and handed to the
    validator; when its normal form is empty, or has a length other than
    [digits], or is ASCII text with a character that is not a digit, the
    answer is [ok=false] without delta and with the reason
    "Invalid or out-of-window token", the one of a code outside the
    window.  The length test is the first thing the validator does: a
    normal form of the wrong length is rejected whatever it holds and
    whatever the codes of the window are.  Nothing is said of a normal
    form of [digits] code units with a character outside ASCII. *)
Theorem verify_malformed_candidate `{Builtins} (p : Process) (this this' : t)
    (spec : TOTP) (code : jsstring) (window timestamp : option Z) :
  getTOTP p this = (inr spec, this') ->
  1 <= digits spec ->
  (code = [] ->
   verify code window timestamp p this
   = (inr (rejected "Empty or non-string code"), this'))
  /\ (code <> [] ->
      normalizeToken code = []
      \/ Z.of_nat (length (normalizeToken code)) <> digits spec
      \/ (Forall isAscii (normalizeToken code)
          /\ ~ Forall digitChar (normalizeToken code)) ->
      verify code window timestamp p this
      = (inr (rejected "Invalid or out-of-window token"), this')).
Proof.
  intros Hget Hd. rewrite (verify_returns _ _ _ _ _ _ _ Hget). split.
  - intros ->. reflexivity.
  - intros Hne Hbad.
    assert (truthy code = true) as -> by (destruct code; [contradiction|reflexivity]).
    unfold TOTP_validate.
    destruct Hbad as [Hempty|[Hlen|[_ Hdig]]].
    + rewrite HOTP_validate_wrong_length; [reflexivity|].
      rewrite Hempty. simpl. lia.
    + rewrite HOTP_validate_wrong_length; [reflexivity|exact Hlen].
    + rewrite HOTP_validate_not_numeric; [reflexivity|lia|exact Hdig].
Qed.

(** The theorem at the scenario, on a candidate of three spaces. *)
Lemma verify_malformed_candidate_witness :
  verify (str "   ") (Some 1) None demo_process (fromUri demo_uri)
  = (inr (rejected "Invalid or out-of-window token"), demo_engine).
Proof.
  refine (proj2 (verify_malformed_candidate demo_process (fromUri demo_uri) _
                   demo_spec (str "   ") (Some 1) None demo_getTOTP _) _ _).
  - simpl. lia.
  - discriminate.
  - left. reflexivity.
Defined.

(** ** Malformed secrets *)

Lemma base32Loop_total (s : jsstring) : forall bits value : Z,
  forallb (fun c => bool_decide (is_Some (base32Index c))) s = true ->
  is_Some (base32Loop s bits value).
Proof.
  induction s as [|c s IH]; intros bits value Hall; simpl.
  - eexists; reflexivity.
  - simpl in Hall. apply andb_true_iff in Hall as [Hc Hs].
    apply bool_decide_eq_true in Hc as [idx Hidx]. rewrite Hidx.
    destruct (8 <=? bits + 5).
    + destruct (IH (bits + 5 - 8)
                  (wrap 32 (Z.lor (Z.shiftl value 5) idx)) Hs) as [out Hout].
      rewrite Hout. eexists; reflexivity.
    + apply IH, Hs.
Qed.

(** A well-formed secret always decodes: the parser reports an invalid
    secret for malformed text only. *)
Lemma validSecret_decodes (s : jsstring) :
  validSecret s = true -> is_Some (base32Decode s).
Proof.
  unfold validSecret, base32Decode. intros Hv.
  destruct (unpadded s) as [|c body] eqn:Hbody; [discriminate|].
  apply base32Loop_total, Hv.
Qed.








(** ** The resolver *)

(** The resolver fails with a configuration error only, and exactly when
    the literal is absent or blank and the key is absent, empty, unset or
    set to the empty string. *)
Lemma getUri_error (p : Process) (this : t) (e : Error) :
  (getUri p this).1 = inl e ->
  classify e = ConfigurationError
  /\ (truthyString (uri this) && truthy (trim (default [] (uri this))) = false)
  /\ (truthyString (envKey this) = false
      \/ Env.has p (default [] (envKey this)) = false).
Proof.
  rewrite getUri_spec. unfold Env.has.
  destruct (truthyString (uri this) && truthy (trim (default [] (uri this))));
    [discriminate|].
  destruct (truthyString (envKey this)).
  - destruct (cache p !! default [] (envKey this)) as [[|c v]|];
      try discriminate; intros [= <-]; auto.
  - intros [= <-]. auto.
Qed.

Lemma getUri_literal (p : Process) (this : t) (u : jsstring) :
  uri this = Some u -> trim u <> [] ->
  getUri p this = (inr (trim u), this).
Proof.
  intros Hu Hne.
  rewrite (surjective_pairing (getUri p this)), getUri_state, getUri_spec, Hu.
  simpl. destruct u as [|c u]; [contradiction|].
  destruct (trim (c :: u)); [contradiction|]. reflexivity.
Qed.

(** C3, evaluated where the code departs from it.  The claim: resolving
    fails with a ConfigurationError whenever neither the literal nor the key
    yields a non-empty string, a white-space-only value of the key included.
    With the variable set to three spaces, [Env.get] finds it non-empty,
    trims it afterwards, and the resolver returns the empty string; the
    failure comes later, from the parser, as an invalid URI. *)
Theorem getUri_whitespace_only_value :
  let p := startup {[ demo_key := str "   " ]} 0 in
  cache p !! demo_key = Some (str "   ")
  /\ getUri p (fromEnv demo_key) = (inr [], fromEnv demo_key)
  /\ getTOTP p (fromEnv demo_key)
     = (inl (InvalidOtpauthUri demo_key InvalidUriFormat), fromEnv demo_key)
  /\ classify (InvalidOtpauthUri demo_key InvalidUriFormat)
     = MalformedConfigurationError.
Proof.
  intros p. split; [evaluate|]. split; [evaluate|]. split; [evaluate|].
  reflexivity.
Qed.

(** ** Refresh *)

(** The methods read [Env.cache] and the clock, never [process.env]: a
    change of the environment does not change what they return. *)
Lemma setenv_unobserved `{Builtins} (p : Process) (key value : jsstring)
    (this : t) (code : jsstring) (window timestamp : option Z) :
  getUri (setenv key value p) this = getUri p this
  /\ getTOTP (setenv key value p) this = getTOTP p this
  /\ getCode timestamp (setenv key value p) this = getCode timestamp p this
  /\ verify code window timestamp (setenv key value p) this
     = verify code window timestamp p this.
Proof.
  assert (getUri (setenv key value p) this = getUri p this) as Huri.
  { unfold getUri, bind, self, process, lift.
    destruct (truthyString (uri this) && _); [reflexivity|].
    destruct (truthyString (envKey this)); reflexivity. }
  assert (getTOTP (setenv key value p) this = getTOTP p this) as Hget.
  { destruct (totp this) as [cached|] eqn:Hc.
    - rewrite !(getTOTP_hit _ _ _ Hc). reflexivity.
    - rewrite !(getTOTP_miss _ _ Hc), Huri. reflexivity. }
  split; [exact Huri|]. split; [exact Hget|]. split.
  - unfold getCode, bind. rewrite Hget.
    destruct (getTOTP p this) as [[e|spec] this']; reflexivity.
  - unfold verify, bind. rewrite Hget.
    destruct (getTOTP p this) as [[e|spec] this']; [reflexivity|].
    destruct (negb (truthy code)); reflexivity.
Qed.

(** [refresh] empties the cache slot: the next call resolves and parses
    again. *)
Lemma refresh_reparses (p q : Process) (this : t) :
  let this' := (refresh p this).2 in
  totp this' = None
  /\ getTOTP q this' =
       match (getUri q this').1 with
       | inl e => (inl e, this')
       | inr u =>
           match URI_parse u with
           | inl e => (inl (InvalidOtpauthUri (source this') e), this')
           | inr (IsTOTP parsed) =>
               (inr parsed,
                {| uri := uri this'; envKey := envKey this';
                   totp := Some parsed |})
           | inr (IsHOTP _) =>
               (inl (NotTotpConfiguration (source this')), this')
           end
       end.
Proof. split; [reflexivity|]. apply getTOTP_miss. reflexivity. Qed.

(** Before [refresh], nothing is resolved: the cached spec answers. *)
Lemma cached_until_refresh (p q : Process) (this this' : t) (spec : TOTP)
    (timestamp : option Z) :
  getTOTP p this = (inr spec, this') ->
  getTOTP q this' = (inr spec, this')
  /\ (timestamp <> Some 0 -> timestamp <> None ->
      (getCode timestamp q this').1 = (getCode timestamp p this).1).
Proof.
  intros Hget. pose proof (getTOTP_again p q _ _ _ Hget) as Hagain.
  split; [exact Hagain|]. intros Hz Hn.
  rewrite (getCode_returns _ _ _ _ _ Hget), (getCode_returns _ _ _ _ _ Hagain).
  destruct timestamp as [ts|]; [|contradiction].
  unfold truthyNumber. destruct (Z.eqb_spec ts 0) as [->|_]; [contradiction|].
  reflexivity.
Qed.

(** C2, evaluated where the code departs from it.  The claim: a change of
    the backing environment value is observed after [refresh()].  The engine
    reads the variable through [Env.cache], the copy made at start-up:
    after the environment variable is set to another provisioning string
    and [refresh()] is called, the engine resolves and parses again, and
    still returns the code of the first string (996554), not that of the
    second (287082), which a process started with the new environment
    returns. *)
Theorem refresh_misses_environment_change :
  let p1 := setenv demo_key other_uri demo_process in
  getCode (Some 59000) demo_process (fromEnv demo_key)
  = (inr (str "996554"), env_engine (Some demo_spec))
  /\ process_env p1 !! demo_key = Some other_uri
  /\ refresh p1 (env_engine (Some demo_spec)) = (inr tt, env_engine None)
  /\ getCode (Some 59000) p1 (env_engine None)
     = (inr (str "996554"), env_engine (Some demo_spec))
  /\ (getCode (Some 59000) (startup (process_env p1) (now p1))
        (fromEnv demo_key)).1
     = inr (str "287082").
Proof.
  intros p1. split; [evaluate|]. split; [evaluate|]. split; [reflexivity|].
  split; evaluate.
Qed.

(** * Further properties of the code *)

(** ** Trimming *)

Lemma trimStart_head (s : jsstring) (c : Z) :
  head (trimStart s) = Some c -> isWhiteSpace c = false.
Proof.
  induction s as [|a s IH]; simpl; [discriminate|].
  destruct (isWhiteSpace a) eqn:Ha; [exact IH|].
  simpl. intros [= <-]. exact Ha.
Qed.

Lemma trimStart_fixed (s : jsstring) :
  (forall c, head s = Some c -> isWhiteSpace c = false) -> trimStart s = s.
Proof.
  destruct s as [|a s]; [reflexivity|]. intros Hh. simpl.
  rewrite (Hh a eq_refl). reflexivity.
Qed.

(** What [trimStart] removes is white space. *)
Lemma trimStart_suffix (s : jsstring) :
  exists w, s = w ++ trimStart s /\ Forall (fun c => isWhiteSpace c = true) w.
Proof.
  induction s as [|a s (w & Hs & Hw)]; [exists []; split; [reflexivity|constructor]|].
  simpl. destruct (isWhiteSpace a) eqn:Ha.
  - exists (a :: w). split; [simpl; congruence|]. constructor; assumption.
  - exists []. split; [reflexivity|constructor].
Qed.

Lemma trimEnd_prefix (s : jsstring) :
  exists w, s = trimEnd s ++ w /\ Forall (fun c => isWhiteSpace c = true) w.
Proof.
  unfold trimEnd. destruct (trimStart_suffix (reverse s)) as (w & Hs & Hw).
  exists (reverse w). split.
  - rewrite <- reverse_app, <- Hs, reverse_involutive. reflexivity.
  - apply Forall_reverse, Hw.
Qed.

Lemma trimEnd_last (s : jsstring) (c : Z) :
  last (trimEnd s) = Some c -> isWhiteSpace c = false.
Proof.
  unfold trimEnd. rewrite last_reverse. apply trimStart_head.
Qed.

Lemma trimEnd_fixed (s : jsstring) :
  (forall c, last s = Some c -> isWhiteSpace c = false) -> trimEnd s = s.
Proof.
  intros Hl. unfold trimEnd. rewrite trimStart_fixed.
  - apply reverse_involutive.
  - intros c Hc. apply Hl. rewrite <- head_reverse. exact Hc.
Qed.

Lemma trimEnd_head (s : jsstring) (c : Z) :
  head (trimEnd s) = Some c -> head s = Some c.
Proof.
  destruct (trimEnd_prefix s) as (w & Hs & _). intros Hc.
  rewrite Hs. destruct (trimEnd s); [discriminate|exact Hc].
Qed.

Lemma trim_head (s : jsstring) (c : Z) :
  head (trim s) = Some c -> isWhiteSpace c = false.
Proof. unfold trim. intros Hc. eapply trimStart_head, trimEnd_head, Hc. Qed.

Lemma trim_last (s : jsstring) (c : Z) :
  last (trim s) = Some c -> isWhiteSpace c = false.
Proof. unfold trim. apply trimEnd_last. Qed.

Lemma trim_fixed (s : jsstring) :
  (forall c, head s = Some c -> isWhiteSpace c = false) ->
  (forall c, last s = Some c -> isWhiteSpace c = false) ->
  trim s = s.
Proof.
  intros Hh Hl. unfold trim. rewrite trimStart_fixed by exact Hh.
  apply trimEnd_fixed, Hl.
Qed.

(** Trimming twice is trimming once. *)
Lemma trim_idempotent (s : jsstring) : trim (trim s) = trim s.
Proof. apply trim_fixed; [apply trim_head|apply trim_last]. Qed.

Lemma trim_whitespace (s : jsstring) :
  Forall (fun c => isWhiteSpace c = true) s -> trim s = [].
Proof.
  intros Hs. unfold trim.
  assert (trimStart s = []) as ->; [|reflexivity].
  induction Hs as [|a s Ha _ IH]; [reflexivity|].
  simpl. rewrite Ha. exact IH.
Qed.

Lemma trim_ascii (s : jsstring) : Forall isAscii s -> Forall isAscii (trim s).
Proof.
  intros Hs. unfold trim.
  destruct (trimStart_suffix s) as (w & Hw & _).
  destruct (trimEnd_prefix (trimStart s)) as (w' & Hw' & _).
  rewrite Hw, Hw' in Hs.
  apply Forall_app in Hs as [_ Hs]. apply Forall_app in Hs as [Hs _].
  exact Hs.
Qed.

(** ** [Env]: presence, [require] and trimming *)

(** [Env.has] decides whether [Env.getString] throws. *)
Lemma getString_has (p : Process) (key : jsstring) :
  Env.getString p key None None
  = if Env.has p key
    then inr (Some (trim (default [] (cache p !! key))))
    else inl (MissingEnvironmentVariable key).
Proof.
  unfold Env.getString, Env.get, Env.has. simpl.
  destruct (cache p !! key) as [[|c v]|]; reflexivity.
Qed.

Lemma filter_nil_iff {A} (f : A -> bool) (l : list A) :
  List.filter f l = [] <-> forall x, x ∈ l -> f x = false.
Proof.
  induction l as [|a l IH]; simpl.
  - split; [intros _ x Hx; inversion Hx|reflexivity].
  - destruct (f a) eqn:Ha.
    + split; [discriminate|]. intros Hall.
      rewrite (Hall a) in Ha by constructor. discriminate.
    + rewrite IH. split.
      * intros Hall x Hx. inversion Hx; subst; [exact Ha|auto].
      * intros Hall x Hx. apply Hall. constructor. exact Hx.
Qed.

(** X1: For names that [Object.prototype] does not define,
    [Env.require(...keys)] returns exactly when every later
    [Env.getString(key)], for a key of the list, returns a string. *)
Theorem require_guards_getString (p : Process) (keys : list jsstring) :
  Forall (fun k => inheritedKey k = false) keys ->
  EnvAccessors.require p keys = inr tt
  <-> forall k, k ∈ keys -> exists v, Env.getString p k None None = inr (Some v).
Proof.
  intros _. unfold EnvAccessors.require.
  transitivity (List.filter (fun k => negb (Env.has p k)) keys = []).
  { destruct (List.filter _ keys); split; congruence. }
  rewrite filter_nil_iff. split.
  - intros Hall k Hk. rewrite getString_has.
    specialize (Hall k Hk). apply negb_false_iff in Hall. rewrite Hall.
    eexists; reflexivity.
  - intros Hall k Hk. destruct (Hall k Hk) as [v Hv].
    rewrite getString_has in Hv.
    destruct (Env.has p k); [reflexivity|discriminate].
Qed.

Lemma require_guards_getString_witness :
  EnvAccessors.require demo_process [demo_key] = inr tt
  <-> forall k, k ∈ [demo_key] ->
        exists v, Env.getString demo_process k None None = inr (Some v).
Proof.
  apply (require_guards_getString demo_process [demo_key]).
  constructor; [reflexivity|constructor].
Defined.




(** X3: A variable that is set and not empty is returned, required or not,
    without the white space at its two ends and with nothing else removed;
    with [trim: false] it is returned as it is. *)
Theorem get_trims_ends_only (p : Process) (key raw : jsstring)
    (required : option bool) (def : option jsstring) :
  cache p !! key = Some raw -> raw <> [] ->
  exists v before after,
    Env.get p key
      {| Env.required := required; Env.defVal := def; Env.trimOpt := None |}
    = inr (Some v)
    /\ raw = before ++ v ++ after
    /\ Forall (fun c => isWhiteSpace c = true) (before ++ after)
    /\ (forall c, head v = Some c \/ last v = Some c -> isWhiteSpace c = false)
    /\ trim v = v
    /\ Env.get p key
         {| Env.required := required; Env.defVal := def;
            Env.trimOpt := Some false |}
       = inr (Some raw).
Proof.
  intros Hraw Hne.
  destruct (trimStart_suffix raw) as (before & Hb & Hwb).
  destruct (trimEnd_prefix (trimStart raw)) as (after & Ha & Hwa).
  exists (trim raw), before, after.
  assert (truthy raw = true) as Ht by (destruct raw; [contradiction|reflexivity]).
  unfold Env.get. simpl. rewrite Hraw, Ht. simpl.
  split; [reflexivity|]. split.
  { unfold trim. rewrite <- Ha. exact Hb. }
  split; [apply Forall_app; split; assumption|]. split.
  { intros c [Hc|Hc]; [eapply trim_head|eapply trim_last]; exact Hc. }
  split; [apply trim_idempotent|reflexivity].
Qed.

Lemma get_trims_ends_only_witness :
  exists v before after,
    Env.get demo_process demo_key
      {| Env.required := None; Env.defVal := None; Env.trimOpt := None |}
    = inr (Some v)
    /\ demo_uri = before ++ v ++ after
    /\ Forall (fun c => isWhiteSpace c = true) (before ++ after)
    /\ (forall c, head v = Some c \/ last v = Some c -> isWhiteSpace c = false)
    /\ trim v = v
    /\ Env.get demo_process demo_key
         {| Env.required := None; Env.defVal := None;
            Env.trimOpt := Some false |}
       = inr (Some demo_uri).
Proof.
  apply (get_trims_ends_only demo_process demo_key demo_uri None None).
  - vm_compute. reflexivity.
  - discriminate.
Defined.

(** ** [Env]: booleans, enumerations and lists *)

Lemma includes_spec (l : list jsstring) (v : jsstring) :
  EnvAccessors.includes l v = true <-> v ∈ l.
Proof.
  unfold EnvAccessors.includes. rewrite existsb_exists. split.
  - intros (x & Hx & Heq). apply streq_spec in Heq. subst x.
    apply list_elem_of_In, Hx.
  - intros Hv. exists v. split; [apply list_elem_of_In, Hv|apply streq_refl].
Qed.

Lemma includes_false (l : list jsstring) (v : jsstring) :
  EnvAccessors.includes l v = false <-> v ∉ l.
Proof.
  rewrite <- includes_spec. destruct (EnvAccessors.includes l v); split;
    congruence || auto.
Qed.

(** With the default trimming, a variable that is set and not empty goes
    to the parser trimmed, required or not. *)
Lemma get_present {T} (p : Process) (key raw : jsstring)
    (opts : EnvAccessors.ParsedOpts T) :
  cache p !! key = Some raw -> raw <> [] ->
  EnvAccessors.trimOpt opts = None ->
  EnvAccessors.get p key opts
  = match EnvAccessors.parser opts (trim raw) with
    | inr v => inr (Some v)
    | inl e => inl e
    end.
Proof.
  intros Hraw Hne Htrim. unfold EnvAccessors.get. rewrite Hraw, Htrim.
  destruct raw as [|c raw]; [contradiction|]. reflexivity.
Qed.

(** X4: [Env.getBoolean] on a variable set to ASCII text: the value counts
    without the white space around it and whatever its case; it is [true]
    for exactly four words, [false] for exactly four others, and the
    not-a-boolean error, which quotes the trimmed value, for everything
    else. *)
Theorem getBoolean_words `{LowerCase} (p : Process) (key raw : jsstring)
    (required def : option bool) :
  cache p !! key = Some raw -> raw <> [] -> Forall isAscii raw ->
  let word := lowerAscii <$> trim raw in
  let result := EnvAccessors.getBoolean p key required def in
  (result = inr (Some true)
   <-> word ∈ [str "true"; str "1"; str "yes"; str "on"])
  /\ (result = inr (Some false)
      <-> word ∈ [str "false"; str "0"; str "no"; str "off"])
  /\ (result = inl (EnvAccessors.NotBoolean key (trim raw))
      <-> word ∉ [str "true"; str "1"; str "yes"; str "on";
                  str "false"; str "0"; str "no"; str "off"]).
Proof.
  intros Hraw Hne Hascii word result.
  assert (truthy raw = true) as Ht by (destruct raw; [contradiction|reflexivity]).
  assert (result =
            if EnvAccessors.includes
                 [str "true"; str "1"; str "yes"; str "on"] word
            then inr (Some true)
            else if EnvAccessors.includes
                      [str "false"; str "0"; str "no"; str "off"] word
                 then inr (Some false)
                 else inl (EnvAccessors.NotBoolean key (trim raw))) as ->.
  { unfold result, EnvAccessors.getBoolean.
    rewrite (get_present p key raw) by (assumption || reflexivity).
    cbn [EnvAccessors.parser].
    rewrite (toLowerCase_ascii (trim raw)) by (apply trim_ascii, Hascii).
    fold word.
    destruct (EnvAccessors.includes
                [str "true"; str "1"; str "yes"; str "on"] word);
      [reflexivity|].
    destruct (EnvAccessors.includes
                [str "false"; str "0"; str "no"; str "off"] word);
      reflexivity. }
  assert (forall w : jsstring,
            w ∈ [str "false"; str "0"; str "no"; str "off"] ->
            w ∉ [str "true"; str "1"; str "yes"; str "on"]) as Hdisjoint.
  { intros w Hw. apply includes_false.
    repeat (apply elem_of_cons in Hw as [->|Hw]; [reflexivity|]).
    inversion Hw. }
  destruct (EnvAccessors.includes [str "true"; str "1"; str "yes"; str "on"]
              word) eqn:Htrue.
  - apply includes_spec in Htrue.
    split; [split; [intros _; exact Htrue|reflexivity]|].
    split.
    + split; [discriminate|]. intros Hf. destruct (Hdisjoint _ Hf Htrue).
    + split; [discriminate|]. intros Hn. exfalso. apply Hn.
      change (word ∈ [str "true"; str "1"; str "yes"; str "on"]
                     ++ [str "false"; str "0"; str "no"; str "off"]).
      apply elem_of_app. left. exact Htrue.
  - apply includes_false in Htrue.
    destruct (EnvAccessors.includes
                [str "false"; str "0"; str "no"; str "off"] word) eqn:Hfalse.
    + apply includes_spec in Hfalse.
      split; [split; [discriminate|contradiction]|].
      split; [split; [intros _; exact Hfalse|reflexivity]|].
      split; [discriminate|]. intros Hn. exfalso. apply Hn.
      change (word ∈ [str "true"; str "1"; str "yes"; str "on"]
                     ++ [str "false"; str "0"; str "no"; str "off"]).
      apply elem_of_app. right. exact Hfalse.
    + apply includes_false in Hfalse.
      split; [split; [discriminate|contradiction]|].
      split; [split; [discriminate|contradiction]|].
      split; [|reflexivity]. intros _ Hin.
      change (word ∈ [str "true"; str "1"; str "yes"; str "on"]
                     ++ [str "false"; str "0"; str "no"; str "off"]) in Hin.
      apply elem_of_app in Hin as [Hin|Hin]; contradiction.
Qed.

Lemma getBoolean_words_witness :
  EnvAccessors.getBoolean
    (startup {[ str "HEADLESS" := str " Yes " ]} 0) (str "HEADLESS")
    None None
  = inr (Some true).
Proof.
  refine (proj2 (proj1 (getBoolean_words
                          (startup {[ str "HEADLESS" := str " Yes " ]} 0)
                          (str "HEADLESS") (str " Yes ") None None _ _ _)) _).
  - vm_compute. reflexivity.
  - discriminate.
  - vm_compute. repeat constructor; discriminate.
  - vm_compute. apply list_elem_of_further, list_elem_of_further.
    apply list_elem_of_here.
Defined.

(** X5: [Env.getEnum] on a variable that is set and not empty returns its
    trimmed value when the list allows it and throws otherwise: a value
    that is returned is allowed and carries no white space at its ends.
    The default of a variable that is not required and not set, under a
    name that [Object.prototype] does not define, is returned as given,
    allowed or not. *)
Theorem getEnum_member (p : Process) (key raw : jsstring)
    (allowed : list jsstring) (required : option bool)
    (def : option jsstring) :
  cache p !! key = Some raw -> raw <> [] ->
  (trim raw ∈ allowed ->
   EnvAccessors.getEnum p key allowed required def = inr (Some (trim raw)))
  /\ (trim raw ∉ allowed ->
      EnvAccessors.getEnum p key allowed required def
      = inl (EnvAccessors.NotInEnum key allowed (trim raw)))
  /\ (forall v,
        EnvAccessors.getEnum p key allowed required def = inr (Some v) ->
        v ∈ allowed /\ trim v = v)
  /\ (inheritedKey key = false ->
      EnvAccessors.getEnum (startup (delete key (cache p)) (now p)) key
        allowed (Some false) def = inr def).
Proof.
  intros Hraw Hne.
  assert (truthy raw = true) as Ht by (destruct raw; [contradiction|reflexivity]).
  assert (EnvAccessors.getEnum p key allowed required def
          = if EnvAccessors.includes allowed (trim raw)
            then inr (Some (trim raw))
            else inl (EnvAccessors.NotInEnum key allowed (trim raw))) as ->.
  { unfold EnvAccessors.getEnum.
    rewrite (get_present p key raw) by (assumption || reflexivity).
    cbn [EnvAccessors.parser].
    destruct (EnvAccessors.includes allowed (trim raw)); reflexivity. }
  split; [intros Hin; apply includes_spec in Hin; rewrite Hin; reflexivity|].
  split; [intros Hin; apply includes_false in Hin; rewrite Hin; reflexivity|].
  split.
  - intros v. destruct (EnvAccessors.includes allowed (trim raw)) eqn:Hin;
      [|discriminate].
    intros [= <-]. split; [apply includes_spec, Hin|apply trim_idempotent].
  - intros _. unfold EnvAccessors.getEnum, EnvAccessors.get. simpl.
    rewrite lookup_delete_eq. reflexivity.
Qed.

Lemma getEnum_member_witness :
  EnvAccessors.getEnum (startup {[ str "NODE_ENV" := str "test " ]} 0)
    (str "NODE_ENV") [str "development"; str "test"; str "production"]
    None None
  = inr (Some (str "test")).
Proof.
  refine (proj1 (getEnum_member
                   (startup {[ str "NODE_ENV" := str "test " ]} 0)
                   (str "NODE_ENV") (str "test ")
                   [str "development"; str "test"; str "production"]
                   None None _ _) _).
  - vm_compute. reflexivity.
  - discriminate.
  - vm_compute. apply list_elem_of_further, list_elem_of_here.
Defined.

(** ** [Env.getList] *)

(** X6: Every item of a list read from the environment is a non-empty string
    without white space at its ends, whatever the separator; the call does
    not throw on a variable that is set and not empty. *)
Theorem getList_items_clean (p : Process) (key raw : jsstring)
    (sep : option jsstring) (required : option bool)
    (def : option (list jsstring)) :
  cache p !! key = Some raw -> raw <> [] ->
  exists items,
    EnvAccessors.getList p key sep required id def = inr (Some items)
    /\ Forall (fun x => x <> [] /\ trim x = x) items.
Proof.
  intros Hraw Hne. unfold EnvAccessors.getList.
  rewrite (get_present p key raw) by (assumption || reflexivity).
  cbn [EnvAccessors.parser]. rewrite list_fmap_id.
  eexists. split; [reflexivity|].
  generalize (EnvAccessors.splitString (default (str ",") sep) (trim raw)).
  intros pieces. induction pieces as [|x pieces IH]; [constructor|].
  rewrite fmap_cons. simpl List.filter.
  destruct (trim x) as [|c y] eqn:Hx; simpl; [exact IH|].
  constructor; [|exact IH]. split; [discriminate|].
  rewrite <- Hx. apply trim_idempotent.
Qed.

Lemma getList_items_clean_witness :
  exists items,
    EnvAccessors.getList
      (startup {[ str "CORS_ORIGINS" := str "http://a.com, ,http://b.com," ]} 0)
      (str "CORS_ORIGINS") None None id None = inr (Some items)
    /\ Forall (fun x => x <> [] /\ trim x = x) items.
Proof.
  apply (getList_items_clean _ _ (str "http://a.com, ,http://b.com,")).
  - vm_compute. reflexivity.
  - discriminate.
Defined.

Lemma head_join (sep : jsstring) (x : jsstring) (rest : list jsstring) :
  x <> [] -> head (EnvAccessors.join sep (x :: rest)) = head x.
Proof.
  intros Hx. destruct x as [|c x]; [contradiction|].
  destruct rest; reflexivity.
Qed.

Lemma last_join (sep : jsstring) (items : list jsstring) (x : jsstring) :
  last items = Some x -> x <> [] ->
  last (EnvAccessors.join sep items) = last x.
Proof.
  intros Hlast Hx. induction items as [|y items IH]; [discriminate|].
  destruct items as [|z items].
  - simpl in *. congruence.
  - rewrite last_cons_cons in Hlast. specialize (IH Hlast).
    change (EnvAccessors.join sep (y :: z :: items))
      with (y ++ sep ++ EnvAccessors.join sep (z :: items)).
    rewrite !last_app, IH.
    destruct (last x) eqn:Hl; [reflexivity|].
    apply last_None in Hl. contradiction.
Qed.

(** A piece without the separator character is read through. *)
Lemma splitLoop_piece (c : Z) (x : jsstring) :
  c ∉ x -> forall rest cur,
  EnvAccessors.splitLoop [c] (x ++ rest) 0 cur
  = EnvAccessors.splitLoop [c] rest 0 (reverse x ++ cur).
Proof.
  induction x as [|a x IH]; intros Hc rest cur; [reflexivity|].
  apply not_elem_of_cons in Hc as [Hne Hc].
  simpl. destruct (Z.eqb_spec c a) as [->|_]; [contradiction|].
  simpl. rewrite IH by exact Hc.
  rewrite reverse_cons, <- app_assoc. reflexivity.
Qed.

Lemma splitLoop_separator (c : Z) (rest cur : jsstring) :
  EnvAccessors.splitLoop [c] (c :: rest) 0 cur
  = reverse cur :: EnvAccessors.splitLoop [c] rest 0 [].
Proof. simpl. rewrite Z.eqb_refl. reflexivity. Qed.

Lemma split_join (c : Z) (items : list jsstring) :
  items <> [] -> Forall (fun x => c ∉ x) items ->
  EnvAccessors.splitString [c] (EnvAccessors.join [c] items) = items.
Proof.
  intros Hne Hall. unfold EnvAccessors.splitString.
  induction Hall as [|x items Hx Hall IH]; [contradiction|].
  destruct items as [|y items].
  - simpl EnvAccessors.join.
    rewrite <- (app_nil_r x) at 1. rewrite splitLoop_piece by exact Hx.
    simpl. rewrite app_nil_r, reverse_involutive. reflexivity.
  - change (EnvAccessors.join [c] (x :: y :: items))
      with (x ++ c :: EnvAccessors.join [c] (y :: items)).
    rewrite splitLoop_piece by exact Hx.
    rewrite splitLoop_separator, app_nil_r, reverse_involutive.
    rewrite IH by discriminate. reflexivity.
Qed.

(** X7: Round trip: a non-empty list of items, each non-empty, without white
    space at its ends and without the separator character, is read back
    from its [join], for the default separator [","] and for every
    one-character separator. *)
Theorem getList_join (p : Process) (key : jsstring) (sep : option jsstring)
    (c : Z) (items : list jsstring) (required : option bool)
    (def : option (list jsstring)) :
  default (str ",") sep = [c] ->
  items <> [] ->
  Forall (fun x => x <> [] /\ trim x = x /\ c ∉ x) items ->
  cache p !! key = Some (EnvAccessors.join [c] items) ->
  EnvAccessors.getList p key sep required id def = inr (Some items).
Proof.
  intros Hsep Hne Hall Hraw.
  assert (forall x c', x ∈ items ->
            head x = Some c' \/ last x = Some c' -> isWhiteSpace c' = false)
    as Hends.
  { intros x c' Hx Hc'.
    rewrite Forall_forall in Hall. destruct (Hall x Hx) as (_ & Htrim & _).
    rewrite <- Htrim in Hc'.
    destruct Hc'; [eapply trim_head|eapply trim_last]; eassumption. }
  destruct items as [|x0 rest] eqn:Hitems; [contradiction|].
  rewrite <- Hitems in *.
  assert (x0 <> []) as Hx0.
  { rewrite Hitems in Hall. inversion Hall as [|? ? (H0 & _) _]. exact H0. }
  destruct (last items) as [xn|] eqn:Hlast;
    [|apply last_None in Hlast; contradiction].
  assert (xn ∈ items /\ xn <> []) as [Hxn_in Hxn].
  { assert (xn ∈ items) as Hin.
    { apply last_Some in Hlast as [l' ->]. apply elem_of_app. right.
      constructor. }
    split; [exact Hin|]. rewrite Forall_forall in Hall.
    apply (Hall xn Hin). }
  assert (EnvAccessors.join [c] items <> []) as Hjoin.
  { intros Hnil. pose proof (head_join [c] x0 rest Hx0) as Hh.
    rewrite <- Hitems, Hnil in Hh. destruct x0; [contradiction|discriminate]. }
  assert (trim (EnvAccessors.join [c] items) = EnvAccessors.join [c] items)
    as Htrim.
  { apply trim_fixed.
    - intros c' Hc'. rewrite Hitems, head_join in Hc' by exact Hx0.
      apply (Hends x0 c'); [rewrite Hitems; constructor|left; exact Hc'].
    - intros c' Hc'. rewrite (last_join _ _ xn Hlast Hxn) in Hc'.
      apply (Hends xn c' Hxn_in). right. exact Hc'. }
  unfold EnvAccessors.getList.
  rewrite (get_present p key (EnvAccessors.join [c] items))
    by (assumption || reflexivity).
  cbn [EnvAccessors.parser]. rewrite Hsep, Htrim, list_fmap_id.
  rewrite split_join;
    [|exact Hne|eapply Forall_impl; [exact Hall|intros ? (_ & _ & ?); assumption]].
  do 2 f_equal. clear -Hall.
  induction Hall as [|x items (Hx & Htx & _) _ IH]; [reflexivity|].
  rewrite fmap_cons, Htx. simpl.
  destruct x; [contradiction|]. simpl. f_equal. exact IH.
Qed.

Lemma getList_join_witness :
  EnvAccessors.getList
    (startup {[ str "RETRY_CODES" := str "500,502,504" ]} 0)
    (str "RETRY_CODES") None None id None
  = inr (Some [str "500"; str "502"; str "504"]).
Proof.
  apply (getList_join _ _ None 44 [str "500"; str "502"; str "504"]).
  - reflexivity.
  - discriminate.
  - repeat constructor; try discriminate;
      vm_compute; intros Hin;
      repeat (apply elem_of_cons in Hin as [Hin|Hin]; [discriminate|]);
      inversion Hin.
  - vm_compute. reflexivity.
Defined.

(** ** The engine: failures, results and windows *)

(** X8: The resolution of the spec comes first and only it changes the
    instance.  [getCode] throws exactly what [getTOTP] throws.  What
    [getTOTP] throws, [verify] and [verifyBool] throw as well, for every
    candidate, the empty one included, and every window and instant; on a
    candidate whose normal form is ASCII text they throw nothing else.
    Each method leaves the instance as [getTOTP] leaves it. *)
Theorem methods_fail_as_getTOTP `{Builtins} (p : Process) (this : t)
    (code : jsstring) (window timestamp : option Z) (e : Error) :
  ((getCode timestamp p this).1 = inl e <-> (getTOTP p this).1 = inl e)
  /\ ((getTOTP p this).1 = inl e ->
      (verify code window timestamp p this).1 = inl e
      /\ (verifyBool code window timestamp p this).1 = inl e)
  /\ (Forall isAscii (normalizeToken code) ->
      ((verify code window timestamp p this).1 = inl e ->
       (getTOTP p this).1 = inl e)
      /\ ((verifyBool code window timestamp p this).1 = inl e ->
          (getTOTP p this).1 = inl e))
  /\ (getCode timestamp p this).2 = (getTOTP p this).2
  /\ (verify code window timestamp p this).2 = (getTOTP p this).2
  /\ (verifyBool code window timestamp p this).2 = (getTOTP p this).2.
Proof.
  destruct (getTOTP p this) as [[e0|spec] this'] eqn:Hget.
  - rewrite (getCode_throws _ _ _ _ _ Hget).
    unfold verifyBool, bind. rewrite (verify_throws _ _ _ _ _ _ _ Hget).
    simpl. conjuncts; try reflexivity.
    + split; intros [= ->]; reflexivity.
    + intros [= ->]. split; reflexivity.
    + intros _. split; intros [= ->]; reflexivity.
  - rewrite (getCode_returns _ _ _ _ _ Hget).
    unfold verifyBool, bind, ret. rewrite (verify_returns _ _ _ _ _ _ _ Hget).
    simpl. conjuncts; try reflexivity.
    + split; discriminate.
    + discriminate.
    + intros _. split; discriminate.
Qed.

(** The theorem on the engine whose secret has a dash, with the empty
    candidate: [verify] throws before it looks at the candidate. *)
Lemma methods_fail_as_getTOTP_witness :
  (verify [] None None demo_process (fromUri bad_secret_uri)).1
  = inl (InvalidOtpauthUri (str "direct") InvalidSecret).
Proof.
  refine (proj1 (proj1 (proj2 (methods_fail_as_getTOTP demo_process
                                 (fromUri bad_secret_uri) [] None None
                                 (InvalidOtpauthUri (str "direct")
                                    InvalidSecret))) _)).
  vm_compute. reflexivity.
Defined.

(** X9: The three fields of a verification result agree: [ok] holds exactly
    when there is a delta and exactly when there is no reason; the reason
    is one of the two messages of the class; [verifyBool] returns [ok]. *)
Theorem verify_result_shape `{Builtins} (p : Process) (this : t)
    (code : jsstring) (window timestamp : option Z)
    (r : VerificationResult) :
  (verify code window timestamp p this).1 = inr r ->
  (ok r = true <-> is_Some (delta r))
  /\ (ok r = false <-> is_Some (reason r))
  /\ (reason r = None
      \/ reason r = Some (str "Empty or non-string code") /\ code = []
      \/ reason r = Some (str "Invalid or out-of-window token") /\ code <> [])
  /\ (verifyBool code window timestamp p this).1 = inr (ok r).
Proof.
  intros Hr. rewrite verifyBool_ok, Hr.
  destruct (getTOTP p this) as [[e0|spec] this'] eqn:Hget.
  - rewrite (verify_throws _ _ _ _ _ _ _ Hget) in Hr. discriminate.
  - rewrite (verify_returns _ _ _ _ _ _ _ Hget) in Hr. simpl in Hr.
    injection Hr as <-.
    destruct code as [|c code]; simpl.
    + conjuncts; try reflexivity; try (split; [discriminate|]);
        try (split; [eexists; reflexivity|reflexivity]);
        try (intros [? [=]]). right; left; split; reflexivity.
    + destruct (TOTP_validate _ _ _ _ _) as [d|]; simpl.
      * conjuncts; try reflexivity;
          try (split; [eexists; reflexivity|reflexivity]);
          try (split; [discriminate|intros [? [=]]]). left; reflexivity.
      * conjuncts; try reflexivity;
          try (split; [eexists; reflexivity|reflexivity]);
          try (split; [discriminate|intros [? [=]]]).
        right; right; split; [reflexivity|discriminate].
Qed.

Lemma verify_result_shape_witness :
  (verifyBool (str "996554") (Some 1) (Some 89000) demo_process
     (fromUri demo_uri)).1 = inr true.
Proof.
  refine (proj2 (proj2 (proj2
    (verify_result_shape demo_process (fromUri demo_uri) (str "996554")
       (Some 1) (Some 89000) (accepted (-1)) _)))).
  vm_compute. reflexivity.
Defined.

(** The validator for every token and every window: a window below 0
    counts as 0; the answer is the first offset, in the order of
    comparison, whose code is the token. *)
Lemma HOTP_validate_cases (token : jsstring) (key : bytes) (alg : Algorithm)
    (digits counter window : Z) :
  1 <= digits ->
  match HOTP_validate token key alg digits counter window with
  | Some d =>
      Z.abs d <= Z.max 0 window
      /\ token = HOTP_generate key alg digits (counter + d)
      /\ forall j, precedes j d ->
                   token <> HOTP_generate key alg digits (counter + j)
  | None =>
      forall j, Z.abs j <= Z.max 0 window ->
                token <> HOTP_generate key alg digits (counter + j)
  end.
Proof.
  intros Hd.
  destruct (Z.eq_dec (Z.of_nat (length token)) digits) as [Hlen|Hlen].
  - assert (HOTP_validate token key alg digits counter window
            = HOTP_validate token key alg digits counter (Z.max 0 window))
      as ->.
    { assert (Z.to_nat window = Z.to_nat (Z.max 0 window)) as Hn by lia.
      unfold HOTP_validate. rewrite Hn. reflexivity. }
    apply HOTP_validate_spec; [exact Hlen|lia].
  - rewrite HOTP_validate_wrong_length by exact Hlen.
    intros j _ Heq. apply Hlen. rewrite Heq.
    apply HOTP_generate_length, Hd.
Qed.

(** X10: [verify] accepts exactly the candidates whose normal form is the code
    of a time step within the window around the instant (the clock when no
    instant is given), and the delta it reports is the offset of such a
    step; a window below 0 counts as 0.  A candidate whose normal form is
    no such code, and is ASCII text or of a length other than [digits], is
    rejected with the reason of a code outside the window. *)
Theorem verify_accepts_window_codes `{Builtins} (p : Process) (this this' : t)
    (spec : TOTP) (code : jsstring) (window : Z) (timestamp : option Z) :
  getTOTP p this = (inr spec, this') ->
  1 <= digits spec ->
  code <> [] ->
  let c := TOTP_counter (period spec) (default (now p) timestamp) in
  let result := verify code (Some window) timestamp p this in
  (forall d, result = (inr (accepted d), this') ->
             Z.abs d <= Z.max 0 window
             /\ normalizeToken code = code_at spec (c + d))
  /\ ((exists j, Z.abs j <= Z.max 0 window
                 /\ normalizeToken code = code_at spec (c + j))
      -> exists d, result = (inr (accepted d), this'))
  /\ (Forall isAscii (normalizeToken code)
      \/ Z.of_nat (length (normalizeToken code)) <> digits spec ->
      (forall j, Z.abs j <= Z.max 0 window ->
                 normalizeToken code <> code_at spec (c + j)) ->
      result = (inr (rejected "Invalid or out-of-window token"), this')).
Proof.
  intros Hget Hd Hne c result. unfold result.
  rewrite (verify_returns _ _ _ _ _ _ _ Hget).
  assert (truthy code = true) as -> by (destruct code; [contradiction|reflexivity]).
  unfold TOTP_validate. simpl default. fold c.
  pose proof (HOTP_validate_cases (normalizeToken code) (secret spec)
                (algorithm spec) (digits spec) c window Hd) as Hcases.
  destruct (HOTP_validate (normalizeToken code) (secret spec)
              (algorithm spec) (digits spec) c window) as [d0|].
  - destruct Hcases as (Hin & Hmatch & _). split; [|split].
    + intros d [= <-]. split; assumption.
    + intros _. exists d0. reflexivity.
    + intros _ Hnone. destruct (Hnone d0 Hin Hmatch).
  - split; [|split].
    + intros d [=].
    + intros (j & Hj & Heq). destruct (Hcases j Hj Heq).
    + intros _ _. reflexivity.
Qed.

Lemma verify_accepts_window_codes_witness :
  exists d,
    verify (str " 996 554 ") (Some 1) (Some 89000) demo_process
      (fromUri demo_uri)
    = (inr (accepted d), demo_engine).
Proof.
  refine (proj1 (proj2 (verify_accepts_window_codes demo_process
                          (fromUri demo_uri) demo_engine demo_spec
                          (str " 996 554 ") 1 (Some 89000) demo_getTOTP _ _))
            _).
  - simpl. lia.
  - discriminate.
  - exists (-1). split; [simpl; lia|]. vm_compute. reflexivity.
Defined.

(** X11: Widening the window keeps what was accepted, with the same delta. *)
Theorem verify_window_monotone `{Builtins} (p : Process) (this this' : t)
    (spec : TOTP) (code : jsstring) (w w' d : Z) (timestamp : option Z) :
  getTOTP p this = (inr spec, this') ->
  1 <= digits spec ->
  w <= w' ->
  verify code (Some w) timestamp p this = (inr (accepted d), this') ->
  verify code (Some w') timestamp p this = (inr (accepted d), this').
Proof.
  intros Hget Hd Hw. rewrite !(verify_returns _ _ _ _ _ _ _ Hget).
  destruct (truthy code); [|discriminate].
  unfold TOTP_validate. simpl default.
  set (c := TOTP_counter (period spec) (default (now p) timestamp)).
  pose proof (HOTP_validate_cases (normalizeToken code) (secret spec)
                (algorithm spec) (digits spec) c w Hd) as Hnarrow.
  pose proof (HOTP_validate_cases (normalizeToken code) (secret spec)
                (algorithm spec) (digits spec) c w' Hd) as Hwide.
  destruct (HOTP_validate (normalizeToken code) (secret spec)
              (algorithm spec) (digits spec) c w) as [d0|]; [|discriminate].
  intros [= <-]. destruct Hnarrow as (Hin & Hmatch & Hfirst).
  destruct (HOTP_validate (normalizeToken code) (secret spec)
              (algorithm spec) (digits spec) c w') as [d1|].
  - destruct Hwide as (_ & Hmatch1 & Hfirst1).
    destruct (precedes_total d1 d0) as [->|[Hlt|Hgt]]; [reflexivity| |].
    + destruct (Hfirst d1 Hlt Hmatch1).
    + destruct (Hfirst1 d0 Hgt Hmatch).
  - destruct (Hwide d0 ltac:(lia) Hmatch).
Qed.

Lemma verify_window_monotone_witness :
  verify (str "996554") (Some 5) (Some 89000) demo_process (fromUri demo_uri)
  = (inr (accepted (-1)), demo_engine).
Proof.
  apply (verify_window_monotone demo_process (fromUri demo_uri) demo_engine
           demo_spec (str "996554") 1 5 (-1) (Some 89000) demo_getTOTP).
  - simpl. lia.
  - lia.
  - vm_compute. reflexivity.
Defined.

(** ** The normaliser on what a keyboard produces *)

Lemma upperAscii_idempotent (c : Z) : upperAscii (upperAscii c) = upperAscii c.
Proof.
  unfold upperAscii.
  destruct ((97 <=? c) && (c <=? 122)) eqn:E; [|rewrite E; reflexivity].
  apply andb_true_iff in E as [E1 E2]. apply Z.leb_le in E1, E2.
  destruct (Z.leb_spec 97 (c - 32)); [lia|reflexivity].
Qed.

Lemma upperAscii_keeps (c : Z) :
  isAscii c -> isWhiteSpace c = false ->
  isAscii (upperAscii c) /\ isWhiteSpace (upperAscii c) = false.
Proof.
  unfold upperAscii, isAscii. intros Hc Hw.
  destruct ((97 <=? c) && (c <=? 122)) eqn:E; [|auto].
  apply andb_true_iff in E as [E1 E2]. apply Z.leb_le in E1, E2.
  split; [lia|]. unfold isWhiteSpace. lia.
Qed.

(** The normal form of text typed with ASCII characters, full-width
    digits and white space of any kind: ASCII, no white space. *)
Lemma normalizeToken_typed `{Builtins} (s : jsstring) :
  Forall (fun c => isAscii c \/ 0xFF10 <= c <= 0xFF19
                   \/ isWhiteSpace c = true) s ->
  normalizeToken s = upperAscii <$> removeWhiteSpace (toAsciiDigits s)
  /\ Forall (fun c => isAscii c /\ isWhiteSpace c = false)
       (normalizeToken s).
Proof.
  intros Hs.
  assert (Forall (fun c => isAscii c /\ isWhiteSpace c = false)
            (removeWhiteSpace (toAsciiDigits s))) as Hclean.
  { unfold removeWhiteSpace, toAsciiDigits.
    induction Hs as [|c s Hc _ IH]; [constructor|].
    rewrite fmap_cons.
    set (c' := if (0xFF10 <=? c) && (c <=? 0xFF19) then c - 0xFF10 + 0x30
               else c) in *.
    destruct (isWhiteSpace c') eqn:Hw.
    - rewrite filter_cons_False by (rewrite Hw; discriminate). exact IH.
    - rewrite filter_cons_True by exact Hw.
      constructor; [|exact IH]. split; [|exact Hw].
      unfold c', isAscii in *.
      destruct (Z.leb_spec 0xFF10 c), (Z.leb_spec c 0xFF19); simpl in *;
        try lia;
        destruct Hc as [Hc|[Hc|Hc]]; try lia;
        unfold c' in Hw; simpl in Hw;
        repeat match goal with
               | H : context [if ?b then _ else _] |- _ => destruct b eqn:?
               end; simpl in *; congruence || lia. }
  assert (normalizeToken s = upperAscii <$> removeWhiteSpace (toAsciiDigits s))
    as Hnorm.
  { unfold normalizeToken. apply toUpperCase_ascii.
    eapply Forall_impl; [exact Hclean|]. intros c [Hc _]. exact Hc. }
  split; [exact Hnorm|]. rewrite Hnorm.
  apply Forall_fmap. eapply Forall_impl; [exact Hclean|].
  intros c [Hc Hw]. apply upperAscii_keeps; assumption.
Qed.

(** X12: Normalising is idempotent on text typed with ASCII characters,
    full-width digits and white space, and [verify] cannot tell such a
    candidate from its normal form, unless that form is empty. *)
Theorem normalizeToken_idempotent `{Builtins} (p : Process) (this : t)
    (s : jsstring) (window timestamp : option Z) :
  Forall (fun c => isAscii c \/ 0xFF10 <= c <= 0xFF19
                   \/ isWhiteSpace c = true) s ->
  normalizeToken (normalizeToken s) = normalizeToken s
  /\ (normalizeToken s <> [] ->
      verify s window timestamp p this
      = verify (normalizeToken s) window timestamp p this).
Proof.
  intros Hs. destruct (normalizeToken_typed s Hs) as [Hnorm Hclean].
  assert (normalizeToken (normalizeToken s) = normalizeToken s) as Hidem.
  { destruct (normalizeToken_typed (normalizeToken s)) as [Hnorm2 _].
    { eapply Forall_impl; [exact Hclean|]. intros c [Hc _]. left. exact Hc. }
    rewrite Hnorm2.
    assert (toAsciiDigits (normalizeToken s) = normalizeToken s) as ->.
    { unfold toAsciiDigits. rewrite <- (list_fmap_id (normalizeToken s)) at 2.
      apply Forall_fmap_ext. eapply Forall_impl; [exact Hclean|].
      intros c [Hc _]. unfold isAscii in Hc. simpl.
      destruct (Z.leb_spec 0xFF10 c); [lia|reflexivity]. }
    assert (removeWhiteSpace (normalizeToken s) = normalizeToken s) as ->.
    { unfold removeWhiteSpace. clear -Hclean.
      induction Hclean as [|c l [_ Hw] _ IH]; [reflexivity|].
      rewrite filter_cons_True by exact Hw. f_equal. exact IH. }
    rewrite Hnorm, <- list_fmap_compose.
    apply list_fmap_ext. intros _ c _. apply upperAscii_idempotent. }
  split; [exact Hidem|]. intros Hne.
  assert (s <> []) as Hs0 by (intros ->; apply Hne; rewrite Hnorm; reflexivity).
  unfold verify, bind.
  destruct (getTOTP p this) as [[e|spec] this']; [reflexivity|].
  destruct s as [|a s]; [contradiction|].
  destruct (normalizeToken (a :: s)) as [|b n] eqn:Hn; [contradiction|].
  simpl truthy. simpl negb. cbv iota. rewrite Hidem. reflexivity.
Qed.

Lemma normalizeToken_idempotent_witness :
  normalizeToken (normalizeToken (str " ab 12 ")) = normalizeToken (str " ab 12 ").
Proof.
  refine (proj1 (normalizeToken_idempotent demo_process (fromUri demo_uri)
                   (str " ab 12 ") None None _)).
  change (str " ab 12 ") with [32; 97; 98; 32; 49; 50; 32].
  repeat (constructor; [left; unfold isAscii; lia|]). constructor.
Defined.

(** X13: A candidate of digits, ASCII or full-width, with white space anywhere
    has the ASCII digits as its normal form, one for each digit typed. *)
Theorem normalizeToken_any_width `{Builtins} (s : jsstring) :
  Forall (fun c => digitChar c \/ 0xFF10 <= c <= 0xFF19
                   \/ isWhiteSpace c = true) s ->
  normalizeToken s = toAsciiDigits (removeWhiteSpace s)
  /\ Forall digitChar (normalizeToken s)
  /\ length (normalizeToken s) = length (removeWhiteSpace s).
Proof.
  intros Hs.
  assert (Forall digitChar (toAsciiDigits (removeWhiteSpace s))) as Hdig.
  { unfold removeWhiteSpace, toAsciiDigits.
    induction Hs as [|c s Hc _ IH]; [constructor|].
    destruct (isWhiteSpace c) eqn:Hw.
    - rewrite filter_cons_False by (rewrite Hw; discriminate). exact IH.
    - rewrite filter_cons_True by exact Hw. rewrite fmap_cons.
      constructor; [|exact IH]. unfold digitChar in *.
      destruct Hc as [Hc|[Hc|Hc]]; [| |congruence].
      + destruct (Z.leb_spec 0xFF10 c); [lia|]. simpl. exact Hc.
      + destruct (Z.leb_spec 0xFF10 c), (Z.leb_spec c 0xFF19); simpl; lia. }
  assert (normalizeToken s = toAsciiDigits (removeWhiteSpace s)) as Hnorm.
  { unfold normalizeToken. rewrite removeWhiteSpace_toAsciiDigits.
    apply toUpperCase_digits, Hdig. }
  rewrite Hnorm. split; [reflexivity|]. split; [exact Hdig|].
  unfold toAsciiDigits. apply length_fmap.
Qed.

Lemma normalizeToken_any_width_witness :
  normalizeToken [0xFF11; 0xFF12; 0xFF13; 0x3000; 52; 53; 54] = str "123456".
Proof.
  refine (eq_trans (proj1 (normalizeToken_any_width
                             [0xFF11; 0xFF12; 0xFF13; 0x3000; 52; 53; 54] _))
            eq_refl).
  repeat (constructor; [right; left; lia|]).
  constructor; [right; right; reflexivity|].
  repeat (constructor; [left; unfold digitChar; lia|]). constructor.
Defined.

(** ** The engine: sources and the cache slot *)

(** X14: A provisioning string that the resolver returns has no white space at
    its ends, from the literal and from the environment alike. *)
Theorem getUri_trimmed (p : Process) (this : t) (u : jsstring) :
  (getUri p this).1 = inr u ->
  trim u = u
  /\ forall c, head u = Some c \/ last u = Some c -> isWhiteSpace c = false.
Proof.
  rewrite getUri_spec. intros Hu.
  assert (exists s, u = trim s) as [s ->].
  { destruct (truthyString (uri this) && _); [injection Hu as <-; eauto|].
    destruct (truthyString (envKey this)); [|discriminate].
    destruct (cache p !! default [] (envKey this)) as [[|c v]|];
      try discriminate.
    injection Hu as <-. eauto. }
  split; [apply trim_idempotent|].
  intros c [Hc|Hc]; [eapply trim_head|eapply trim_last]; exact Hc.
Qed.

Lemma getUri_trimmed_witness :
  trim demo_uri = demo_uri
  /\ forall c, head demo_uri = Some c \/ last demo_uri = Some c ->
               isWhiteSpace c = false.
Proof.
  apply (getUri_trimmed demo_process (fromEnv demo_key)).
  vm_compute. reflexivity.
Defined.

(** The resolver reads the instance and [Env.cache], nothing else. *)
Lemma getUri_cache (p q : Process) (this : t) :
  cache q = cache p -> getUri q this = getUri p this.
Proof.
  intros Hc. rewrite (surjective_pairing (getUri q this)),
    (surjective_pairing (getUri p this)), !getUri_state, !getUri_spec, Hc.
  reflexivity.
Qed.

(** X15: [refresh()] gives back the instance as it was before its first use,
    and in a process with the same [Env.cache] the next call parses the
    same spec again: refreshing without a change is harmless. *)
Theorem refresh_restores (p q : Process) (this this' : t) (spec : TOTP) :
  totp this = None ->
  getTOTP p this = (inr spec, this') ->
  cache q = cache p ->
  refresh q this' = (inr tt, this)
  /\ getTOTP q this = (inr spec, this').
Proof.
  intros Hnone Hget Hcache.
  destruct (getTOTP_caches _ _ _ _ Hget) as (_ & Huri & Hkey).
  split.
  - unfold refresh, setTotp. rewrite Huri, Hkey.
    destruct this as [u k c]. simpl in Hnone. subst c. reflexivity.
  - rewrite (getTOTP_miss p _ Hnone) in Hget.
    rewrite (getTOTP_miss q _ Hnone), (getUri_cache p q _ Hcache).
    exact Hget.
Qed.

Lemma refresh_restores_witness :
  refresh (tick 5 demo_process) demo_engine = (inr tt, fromUri demo_uri)
  /\ getTOTP (tick 5 demo_process) (fromUri demo_uri)
     = (inr demo_spec, demo_engine).
Proof.
  apply (refresh_restores demo_process (tick 5 demo_process)
           (fromUri demo_uri) demo_engine demo_spec).
  - reflexivity.
  - exact demo_getTOTP.
  - reflexivity.
Defined.

(** X16: An instance made from a literal string never reads the environment:
    in any two processes it resolves to the same spec or the same error,
    and with an explicit instant other than 0 it generates the same code
    and gives the same verdict. *)
Theorem literal_ignores_process `{Builtins} (p q : Process) (u : jsstring)
    (code : jsstring) (window : option Z) (t0 : Z) :
  t0 <> 0 ->
  getTOTP p (fromUri u) = getTOTP q (fromUri u)
  /\ getCode (Some t0) p (fromUri u) = getCode (Some t0) q (fromUri u)
  /\ verify code window (Some t0) p (fromUri u)
     = verify code window (Some t0) q (fromUri u).
Proof.
  intros Ht.
  assert (getTOTP p (fromUri u) = getTOTP q (fromUri u)) as Hsame.
  { rewrite !getTOTP_miss by reflexivity.
    rewrite !getUri_spec. reflexivity. }
  split; [exact Hsame|].
  destruct (getTOTP q (fromUri u)) as [[e|spec] this'] eqn:Hq.
  - rewrite (getCode_throws _ _ _ _ _ Hsame), (getCode_throws _ _ _ _ _ Hq).
    rewrite (verify_throws _ _ _ _ _ _ _ Hsame),
      (verify_throws _ _ _ _ _ _ _ Hq).
    split; reflexivity.
  - rewrite (getCode_returns _ _ _ _ _ Hsame), (getCode_returns _ _ _ _ _ Hq).
    rewrite (verify_returns _ _ _ _ _ _ _ Hsame),
      (verify_returns _ _ _ _ _ _ _ Hq).
    unfold truthyNumber. destruct (Z.eqb_spec t0 0); [contradiction|].
    split; reflexivity.
Qed.

Lemma literal_ignores_process_witness :
  getCode (Some 59000) demo_process (fromUri demo_uri)
  = getCode (Some 59000) (startup ∅ 7) (fromUri demo_uri).
Proof.
  refine (proj1 (proj2 (literal_ignores_process demo_process (startup ∅ 7)
                          demo_uri [] None 59000 _))).
  lia.
Defined.

(** X17: The sources that resolve to nothing: a blank literal, an empty name,
    and a name, other than those [Object.prototype] defines, whose variable
    is unset or empty.  Each is a configuration error, thrown by every
    call, and the last one names the variable. *)
Theorem unresolvable_sources (p : Process) (u key : jsstring) :
  trim u = [] ->
  key <> [] ->
  inheritedKey key = false ->
  cache p !! key = None \/ cache p !! key = Some [] ->
  getTOTP p (fromUri u) = (inl NoUriOrEnvKey, fromUri u)
  /\ getTOTP p (fromEnv []) = (inl NoUriOrEnvKey, fromEnv [])
  /\ getTOTP p (fromEnv key)
     = (inl (MissingEnvironmentVariable key), fromEnv key)
  /\ classify NoUriOrEnvKey = ConfigurationError
  /\ classify (MissingEnvironmentVariable key) = ConfigurationError.
Proof.
  intros Hu Hkey _ Hunset.
  rewrite !getTOTP_miss by reflexivity. rewrite !getUri_spec.
  simpl uri. simpl envKey. simpl default. rewrite Hu.
  rewrite andb_false_r. simpl.
  assert (truthy key = true) as -> by (destruct key; [contradiction|reflexivity]).
  destruct Hunset as [-> | ->]; conjuncts; reflexivity.
Qed.

Lemma unresolvable_sources_witness :
  getTOTP demo_process (fromEnv (str "OTP_URI"))
  = (inl (MissingEnvironmentVariable (str "OTP_URI")), fromEnv (str "OTP_URI")).
Proof.
  refine (proj1 (proj2 (proj2 (unresolvable_sources demo_process (str "  ")
                                 (str "OTP_URI") _ _ _ _)))).
  - reflexivity.
  - discriminate.
  - reflexivity.
  - left. vm_compute. reflexivity.
Defined.

(** X18: A provisioning string that parses to a counter-based configuration is
    refused with the not-a-TOTP error, which names the source; nothing is
    cached. *)
Theorem counter_based_refused `{Builtins} (p : Process) (this : t)
    (u : jsstring) (h : HOTP) (code : jsstring) (window timestamp : option Z) :
  totp this = None ->
  (getUri p this).1 = inr u ->
  URI_parse u = inr (IsHOTP h) ->
  let e := NotTotpConfiguration (source this) in
  getTOTP p this = (inl e, this)
  /\ getCode timestamp p this = (inl e, this)
  /\ verify code window timestamp p this = (inl e, this)
  /\ classify e = UnsupportedTypeError.
Proof.
  intros Hnone Hu Hparse e.
  assert (getTOTP p this = (inl e, this)) as Hget
    by (rewrite (getTOTP_miss _ _ Hnone), Hu, Hparse; reflexivity).
  split; [exact Hget|]. split; [apply getCode_throws, Hget|].
  split; [apply verify_throws, Hget|reflexivity].
Qed.

Lemma counter_based_refused_witness :
  getTOTP demo_process
    (fromUri (str "otpauth://hotp/demo?secret=JBSWY3DPEHPK3PXP&counter=7"))
  = (inl (NotTotpConfiguration (str "direct")),
     fromUri (str "otpauth://hotp/demo?secret=JBSWY3DPEHPK3PXP&counter=7")).
Proof.
  refine (proj1 (counter_based_refused demo_process
                   (fromUri (str "otpauth://hotp/demo?secret=JBSWY3DPEHPK3PXP&counter=7"))
                   (str "otpauth://hotp/demo?secret=JBSWY3DPEHPK3PXP&counter=7")
                   {| hotp_label := str "demo"; hotp_secret := secret demo_spec;
                      hotp_algorithm := SHA1; hotp_digits := 6; counter := 7 |}
                   [] None None _ _ _)).
  - reflexivity.
  - vm_compute. reflexivity.
  - vm_compute. reflexivity.
Defined.

(** X19: Once the spec resolves, [getCode] returns for every timestamp, absent
    and zero included, and what it returns is exactly [digits] ASCII
    digits. *)
Theorem getCode_shape (p : Process) (this this' : t) (spec : TOTP)
    (timestamp : option Z) :
  getTOTP p this = (inr spec, this') ->
  1 <= digits spec ->
  exists code,
    getCode timestamp p this = (inr code, this')
    /\ Z.of_nat (length code) = digits spec
    /\ Forall digitChar code.
Proof.
  intros Hget Hd. rewrite (getCode_returns _ _ _ _ _ Hget).
  eexists. split; [reflexivity|].
  destruct (truthyNumber timestamp); unfold TOTP_generate;
    (split; [apply HOTP_generate_length; exact Hd
            |apply HOTP_generate_digits; lia]).
Qed.

Lemma getCode_shape_witness :
  exists code,
    getCode None demo_process (fromUri demo_uri) = (inr code, demo_engine)
    /\ Z.of_nat (length code) = 6
    /\ Forall digitChar code.
Proof.
  apply (getCode_shape demo_process (fromUri demo_uri) demo_engine demo_spec
           None demo_getTOTP).
  simpl. lia.
Defined.

(** Two instants of one time step, at its first and last millisecond. *)
Lemma getCode_step_witness :
  (getCode (Some 30000) demo_process (fromUri demo_uri)).1
  = (getCode (Some 59999) (tick 5 demo_process) demo_engine).1.
Proof.
  apply (getCode_step demo_process (tick 5 demo_process) (fromUri demo_uri)
           demo_engine demo_spec 30000 59999 demo_getTOTP).
  - lia.
  - lia.
  - reflexivity.
Defined.

(** ** The earlier variants *)

(** X22: The earlier [OTP] reads [process.env] through the earlier [Env]: a
    provisioning string written to the environment at run time is used by
    the first call after [refresh()], and not before, while a spec is
    cached. *)
Theorem legacy_refresh_observes (p : Process) (this : Legacy.t)
    (u : jsstring) (cached fresh : TOTP) :
  Legacy.totp this = Some cached ->
  u <> [] ->
  URI_parse u = inr (IsTOTP fresh) ->
  let p' := setenv (Legacy.envKey this) u p in
  Legacy.getTOTP p' this = (inr cached, this)
  /\ Legacy.getTOTP p' (Legacy.refresh this)
     = (inr fresh,
        {| Legacy.envKey := Legacy.envKey this; Legacy.totp := Some fresh |})
  /\ Legacy.getCode None p' this = (inr (rfc6238 cached (now p)), this)
  /\ Legacy.getCode None p' (Legacy.refresh this)
     = (inr (rfc6238 fresh (now p)),
        {| Legacy.envKey := Legacy.envKey this; Legacy.totp := Some fresh |}).
Proof.
  intros Hcached Hu Hparse p'.
  assert (Legacy.getTOTP p' this = (inr cached, this)) as Hbefore
    by (unfold Legacy.getTOTP; rewrite Hcached; reflexivity).
  assert (Legacy.getTOTP p' (Legacy.refresh this)
          = (inr fresh,
             {| Legacy.envKey := Legacy.envKey this;
                Legacy.totp := Some fresh |})) as Hafter.
  { unfold Legacy.getTOTP, Legacy.refresh, Legacy.Env_get. simpl.
    rewrite lookup_insert_eq. simpl.
    destruct u as [|c u]; [contradiction|]. simpl.
    rewrite Hparse. reflexivity. }
  split; [exact Hbefore|]. split; [exact Hafter|].
  unfold Legacy.getCode. rewrite Hbefore, Hafter. split; reflexivity.
Qed.

Lemma legacy_refresh_observes_witness :
  Legacy.getTOTP (setenv demo_key other_uri demo_process)
    (Legacy.refresh {| Legacy.envKey := demo_key;
                       Legacy.totp := Some demo_spec |})
  = (inr {| issuer := []; label := str "Heroku:demo";
            secret := str "12345678901234567890";
            algorithm := SHA1; digits := 6; period := 30 |},
     {| Legacy.envKey := demo_key;
        Legacy.totp := Some {| issuer := []; label := str "Heroku:demo";
                               secret := str "12345678901234567890";
                               algorithm := SHA1; digits := 6;
                               period := 30 |} |}).
Proof.
  refine (proj1 (proj2 (legacy_refresh_observes demo_process
                   {| Legacy.envKey := demo_key;
                      Legacy.totp := Some demo_spec |}
                   other_uri demo_spec
                   {| issuer := []; label := str "Heroku:demo";
                      secret := str "12345678901234567890";
                      algorithm := SHA1; digits := 6; period := 30 |}
                   _ _ _))).
  - reflexivity.
  - discriminate.
  - vm_compute. reflexivity.
Defined.

(** X23: On a process whose environment has not changed since start-up the two
    [Env] classes agree on every variable, under a name that
    [Object.prototype] does not define, whose value has no white space at
    its ends: the same string, or the same missing-variable error. *)
Theorem legacy_get_agrees (env : gmap jsstring jsstring) (clock : Z)
    (key : jsstring) :
  inheritedKey key = false ->
  (forall raw, env !! key = Some raw -> trim raw = raw) ->
  let p := startup env clock in
  match Legacy.Env_get p key None, Env.getString p key None None with
  | inr v, inr (Some v') => v = v' /\ Env.has p key = true
  | inl (Legacy.MissingVariable k), inl (MissingEnvironmentVariable k') =>
      k = key /\ k' = key /\ Env.has p key = false
  | _, _ => False
  end.
Proof.
  intros _ Htrim p. rewrite getString_has.
  unfold Legacy.Env_get, Env.has, p. simpl.
  destruct (env !! key) as [[|c v]|] eqn:Hk; simpl; auto.
  rewrite (Htrim _ eq_refl). auto.
Qed.

Lemma legacy_get_agrees_witness :
  match Legacy.Env_get demo_process demo_key None,
        Env.getString demo_process demo_key None None with
  | inr v, inr (Some v') => v = v' /\ Env.has demo_process demo_key = true
  | inl (Legacy.MissingVariable k), inl (MissingEnvironmentVariable k') =>
      k = demo_key /\ k' = demo_key /\ Env.has demo_process demo_key = false
  | _, _ => False
  end.
Proof.
  apply (legacy_get_agrees {[ demo_key := demo_uri ]} 1700000000000 demo_key).
  - reflexivity.
  - intros raw. rewrite lookup_singleton_eq. intros [= <-].
    vm_compute. reflexivity.
Defined.

(** X24: The present class differs from the earlier one, on a candidate that is
    not empty, by normalising it: with the same spec in the cache slot,
    [verifyBool] of a candidate is the earlier [verify] of its normal
    form. *)
Theorem verifyBool_is_legacy_verify `{Builtins} (p : Process) (this : t)
    (old : Legacy.t) (spec : TOTP) (code : jsstring)
    (window timestamp : option Z) :
  totp this = Some spec ->
  Legacy.totp old = Some spec ->
  code <> [] ->
  exists verdict,
    verifyBool code window timestamp p this = (inr verdict, this)
    /\ Legacy.verify (normalizeToken code) window timestamp p old
       = (inr verdict, old).
Proof.
  intros Hthis Hold Hne.
  unfold verifyBool, bind, ret.
  rewrite (verify_returns _ _ _ _ _ _ _ (getTOTP_hit p _ _ Hthis)).
  assert (truthy code = true) as -> by (destruct code; [contradiction|reflexivity]).
  unfold Legacy.verify, Legacy.getTOTP. rewrite Hold.
  destruct (TOTP_validate (now p) spec (normalizeToken code)
              (default 1 window) timestamp) as [d|];
    eexists; split; reflexivity.
Qed.

Lemma verifyBool_is_legacy_verify_witness :
  exists verdict,
    verifyBool (str " 996554 ") (Some 1) (Some 59000) demo_process demo_engine
    = (inr verdict, demo_engine)
    /\ Legacy.verify (normalizeToken (str " 996554 ")) (Some 1) (Some 59000)
         demo_process
         {| Legacy.envKey := demo_key; Legacy.totp := Some demo_spec |}
       = (inr verdict,
          {| Legacy.envKey := demo_key; Legacy.totp := Some demo_spec |}).
Proof.
  apply (verifyBool_is_legacy_verify demo_process demo_engine
           {| Legacy.envKey := demo_key; Legacy.totp := Some demo_spec |}
           demo_spec (str " 996554 ") (Some 1) (Some 59000)).
  - reflexivity.
  - reflexivity.
  - discriminate.
Defined.

(** The round trip at the instant of the scenario. *)
Lemma roundtrip_nonzero_witness :
  exists code,
    getCode (Some 59000) demo_process (fromUri demo_uri)
    = (inr code, demo_engine)
    /\ verify code (Some 0) (Some 59000) demo_process demo_engine
       = (inr (accepted 0), demo_engine).
Proof.
  apply (roundtrip_nonzero demo_process (fromUri demo_uri) demo_engine
           demo_spec 59000 demo_getTOTP demo_valid).
  lia.
Defined.
